(** * BIPA Case 1: elasticity features, EOSS revenue simulation and
      discount optimisation

    A shallow embedding of [Case1/BIPA_Case1.py] (the store metrics of
    part A, parts B and C) and of the mock records and the clustering
    step of [api/index.py].

    Numbers.  The script computes with numpy float64 values.  They are
    modelled by [float]: a finite value is a real number (rounding,
    overflow and underflow are not modelled), and the three special
    values [-inf], [+inf] and [nan] behave as IEEE 754 and numpy define
    them ([np.log 0 = -inf], [np.log] of a negative number is [nan],
    [0 * inf = nan], [inf - inf = nan], every comparison with [nan] is
    false).

    External libraries.  [sm.OLS(...).fit()] and
    [scipy.optimize.minimize] are not part of the repository; they appear
    as section variables of the definitions that call them. *)

From Stdlib Require Import Reals Lra List ZArith Bool Lia Permutation Sorted.
From Stdlib Require String.
Import ListNotations.

Open Scope R_scope.

(* ================================================================== *)
(** * numpy float64 values                                             *)
(* ================================================================== *)

Inductive float : Type :=
| Fin (r : R)
| PInf
| NInf
| NaN.

Definition is_finite (a : float) : Prop :=
  match a with Fin _ => True | _ => False end.

Definition isna (a : float) : bool :=
  match a with NaN => true | _ => false end.

(** The infinity that a finite factor [x] turns [+inf] into. *)
Definition scaled_inf (x : R) : float :=
  if Rlt_dec 0 x then PInf else if Rlt_dec x 0 then NInf else NaN.

Definition fneg (a : float) : float :=
  match a with
  | Fin x => Fin (- x)
  | PInf => NInf
  | NInf => PInf
  | NaN => NaN
  end.

Definition fadd (a b : float) : float :=
  match a, b with
  | NaN, _ | _, NaN => NaN
  | Fin x, Fin y => Fin (x + y)
  | PInf, NInf | NInf, PInf => NaN
  | PInf, _ | _, PInf => PInf
  | NInf, _ | _, NInf => NInf
  end.

Definition fsub (a b : float) : float := fadd a (fneg b).

Definition fmul (a b : float) : float :=
  match a, b with
  | NaN, _ | _, NaN => NaN
  | Fin x, Fin y => Fin (x * y)
  | Fin x, PInf | PInf, Fin x => scaled_inf x
  | Fin x, NInf | NInf, Fin x => scaled_inf (- x)
  | PInf, PInf | NInf, NInf => PInf
  | PInf, NInf | NInf, PInf => NInf
  end.

(** [a < b], false as soon as one side is [nan]. *)
Definition flt (a b : float) : bool :=
  match a, b with
  | Fin x, Fin y => if Rlt_dec x y then true else false
  | Fin _, PInf | NInf, Fin _ | NInf, PInf => true
  | _, _ => false
  end.

(** [a >= b], false as soon as one side is [nan]. *)
Definition fge (a b : float) : bool :=
  match a, b with
  | Fin x, Fin y => if Rle_dec y x then true else false
  | PInf, Fin _ | Fin _, NInf | PInf, NInf | PInf, PInf | NInf, NInf => true
  | _, _ => false
  end.

(** [np.log]. *)
Definition np_log (a : float) : float :=
  match a with
  | Fin x => if Rlt_dec 0 x then Fin (ln x)
             else if Rlt_dec x 0 then NaN else NInf
  | PInf => PInf
  | NInf => NaN
  | NaN => NaN
  end.

(** [np.exp]. *)
Definition np_exp (a : float) : float :=
  match a with
  | Fin x => Fin (exp x)
  | PInf => PInf
  | NInf => Fin 0
  | NaN => NaN
  end.

(** Python's builtin [min(a, b)]: the first argument is kept unless the
    second one compares strictly smaller. *)
Definition py_min (a b : float) : float := if flt b a then b else a.

(** Python's builtin [sum]: left to right, starting from [0]. *)
Definition py_sum (l : list float) : float := fold_left fadd l (Fin 0).

Declare Scope float_scope.
Delimit Scope float_scope with fl.
Bind Scope float_scope with float.
Infix "+" := fadd : float_scope.
Infix "-" := fsub : float_scope.
Infix "*" := fmul : float_scope.
Notation "- x" := (fneg x) : float_scope.

(** [epsilon = 1e-9], the script's global smoothing constant. *)
Definition epsilon : R := 1e-9.

(* ================================================================== *)
(** * Part B: feature engineering and the regression                   *)
(* ================================================================== *)

Module PartB.

(** One line of [2.BLINK.HAREMS.csv]. *)
Record row : Type := mkRow {
  year_no : Z;
  week_no : Z;
  sales_units : R;
  discount_per : R;
  promo_week_flg : Z;
  age : Z
}.

(** Lexicographic order on [(year_no, week_no)]. *)
Definition key_le (a b : row) : bool :=
  (year_no a <? year_no b)%Z
  || ((year_no a =? year_no b)%Z && (week_no a <=? week_no b)%Z).

Definition key_lt (a b : row) : bool :=
  (year_no a <? year_no b)%Z
  || ((year_no a =? year_no b)%Z && (week_no a <? week_no b)%Z).

Fixpoint insert (x : row) (l : list row) : list row :=
  match l with
  | [] => [x]
  | y :: l' => if key_le x y then x :: y :: l' else y :: insert x l'
  end.

(** [df.sort_values(['year_no', 'week_no']).reset_index(drop=True)]: a
    stable sort on the two keys. *)
Definition sort_values (df : list row) : list row :=
  fold_right insert [] df.

(** [series.shift(1)]: every value moves down one line, the first line
    becomes [nan] and the last value falls off. *)
Definition shift (s : list float) : list float :=
  firstn (length s) (NaN :: s).

(** [np.log(series + epsilon)]. *)
Definition log_eps (s : list float) : list float :=
  map (fun v => np_log (v + Fin epsilon)%fl) s.

Definition sales_column (df : list row) : list float :=
  map (fun r => Fin (sales_units r)) df.

Definition discount_column (df : list row) : list float :=
  map (fun r => Fin (discount_per r)) df.

(** A line of [df_ts_sorted] once the five feature columns are added. *)
Record frow : Type := mkFrow {
  base : row;
  log_sales : float;
  log_lag_sales : float;
  log_disc : float;
  log_lag_disc : float;
  promo_flag : Z
}.

(** Column assignment: the new columns are attached line by line. *)
Fixpoint assign (df : list row) (ls lls ld lld : list float) : list frow :=
  match df, ls, lls, ld, lld with
  | r :: df', a :: ls', b :: lls', c :: ld', d :: lld' =>
      mkFrow r a b c d (promo_week_flg r) :: assign df' ls' lls' ld' lld'
  | _, _, _, _, _ => []
  end.

(** Lines 93-98: the log columns of [df_ts_sorted]. *)
Definition add_features (df_ts_sorted : list row) : list frow :=
  assign df_ts_sorted
    (log_eps (sales_column df_ts_sorted))
    (log_eps (shift (sales_column df_ts_sorted)))
    (log_eps (discount_column df_ts_sorted))
    (log_eps (shift (discount_column df_ts_sorted))).

(** Line 101: weeks up to week 51 of 2014. *)
Definition train_mask (r : frow) : bool :=
  (year_no (base r) <? 2014)%Z
  || ((year_no (base r) =? 2014)%Z && (week_no (base r) <=? 51)%Z).

(** [dropna(subset=['log_lag_sales', 'log_lag_disc'])]. *)
Definition dropna (df : list frow) : list frow :=
  filter (fun r => negb (isna (log_lag_sales r)) && negb (isna (log_lag_disc r))) df.

(** Lines 87-102. *)
Definition train_data (df_ts : list row) : list frow :=
  dropna (filter train_mask (add_features (sort_values df_ts))).

(** [model_log.params]: the six entries that the objective function
    reads by name. *)
Record params : Type := mkParams {
  const : R;
  coef_log_lag_sales : R;
  coef_log_disc : R;
  coef_log_lag_disc : R;
  coef_promo_flag : R;
  coef_age : R
}.

(** [train_data[X_cols]] and [train_data[y_col]]. *)
Definition X_cols (train : list frow) : list (list float) :=
  map (fun r => [log_lag_sales r; log_disc r; log_lag_disc r;
                 Fin (IZR (promo_flag r)); Fin (IZR (age (base r)))]) train.

Definition y_col (train : list frow) : list float := map log_sales train.

(** What the [try] block of part B can end with. *)
Inductive exn : Type :=
| FileNotFoundError
| Exception (e : nat).

Inductive outcome (A : Type) : Type :=
| Returned (a : A)
| Raised (e : exn).
Arguments Returned {A} a.
Arguments Raised {A} e.

Section Script.
(** [pd.read_csv]: the file's lines, or nothing when it is missing. *)
Variable read_csv : option (list row).
(** [sm.add_constant], from statsmodels. *)
Variable add_constant : list (list float) -> list (list float).
(** [sm.OLS(y, X).fit()], from statsmodels: coefficients or an
    exception. *)
Variable OLS_fit : list float -> list (list float) -> outcome params.

(** The [try] block of part B: [model_log] when it gets bound,
    otherwise the exception that the handlers print. *)
Definition part_b : outcome params :=
  match read_csv with
  | None => Raised FileNotFoundError
  | Some df_ts =>
      let train_data := train_data df_ts in
      let X := add_constant (X_cols train_data) in
      let y := y_col train_data in
      OLS_fit y X
  end.
End Script.

(** The series is in time order: the keys never go down. *)
Definition time_ordered (df : list row) : Prop :=
  Sorted (fun a b => key_le a b = true) df.

(** Time order with every [(year_no, week_no)] at most once. *)
Definition strictly_time_ordered (df : list row) : Prop :=
  Sorted (fun a b => key_lt a b = true) df.

(** Sales and discounts as the data has them: never negative. *)
Definition well_formed (r : row) : Prop :=
  0 <= sales_units r /\ 0 <= discount_per r.

(** The lines of [add_features] written line by line: the lag columns of
    a line come from the values [ps] and [pd] of the line before. *)
Fixpoint rows_from (ps pd : float) (df : list row) : list frow :=
  match df with
  | [] => []
  | r :: df' =>
      mkFrow r
        (np_log (Fin (sales_units r) + Fin epsilon)%fl)
        (np_log (ps + Fin epsilon)%fl)
        (np_log (Fin (discount_per r) + Fin epsilon)%fl)
        (np_log (pd + Fin epsilon)%fl)
        (promo_week_flg r)
      :: rows_from (Fin (sales_units r)) (Fin (discount_per r)) df'
  end.

End PartB.

(* ================================================================== *)
(** * Part C: the objective function and the optimiser's inputs        *)
(* ================================================================== *)

Module PartC.

Import PartB.

(** "Inputs from the case". *)
Record inputs : Type := mkInputs {
  inv_start : R;
  age_start : Z;
  prev_disc : R;
  prev_sale : R;
  mrp : R
}.

Definition case_inputs : inputs := mkInputs 2476 96 0.579 48 606.

(** The variables the loop of [objective_function] updates. *)
Record state : Type := mkState {
  total_revenue : float;
  current_inventory : float;
  log_lag_sales : float;
  log_lag_discount : float
}.

Section Objective.
Variable inp : inputs.
Variable coef : params.

Definition age_current_week (i : nat) : Z := (age_start inp + Z.of_nat i + 1)%Z.

Definition is_promo_week : R := 1.

Definition pred_log_sales (st : state) (i : nat) (d : R) : float :=
  (Fin (const coef)
   + Fin (coef_log_lag_sales coef) * log_lag_sales st
   + Fin (coef_log_disc coef) * np_log (Fin d)
   + Fin (coef_log_lag_disc coef) * log_lag_discount st
   + Fin (coef_promo_flag coef) * Fin is_promo_week
   + Fin (coef_age coef) * Fin (IZR (age_current_week i)))%fl.

Definition predicted_sales (st : state) (i : nat) (d : R) : float :=
  np_exp (pred_log_sales st i d).

Definition actual_sales (st : state) (i : nat) (d : R) : float :=
  py_min (predicted_sales st i d) (current_inventory st).

Definition weekly_revenue (st : state) (i : nat) (d : R) : float :=
  (actual_sales st i d * Fin (mrp inp) * (Fin 1 - Fin d))%fl.

(** One pass through the loop body for week [i] at discount [d]. *)
Definition week (st : state) (i : nat) (d : R) : state :=
  {| total_revenue := (total_revenue st + weekly_revenue st i d)%fl;
     current_inventory := (current_inventory st - actual_sales st i d)%fl;
     log_lag_sales := np_log (actual_sales st i d + Fin epsilon)%fl;
     log_lag_discount := np_log (Fin d) |}.

(** The state before the loop. *)
Definition init : state :=
  {| total_revenue := Fin 0;
     current_inventory := Fin (inv_start inp);
     log_lag_sales := np_log (Fin (prev_sale inp));
     log_lag_discount := np_log (Fin (prev_disc inp)) |}.

(** [for i in ...]: [discounts[i]] raises [IndexError] ([None]) when the
    vector is too short. *)
Fixpoint for_weeks (discounts : list R) (range : list nat) (st : state)
  : option state :=
  match range with
  | [] => Some st
  | i :: range' =>
      match nth_error discounts i with
      | None => None
      | Some d => for_weeks discounts range' (week st i d)
      end
  end.

Definition residual_revenue (st : state) : float :=
  (current_inventory st * Fin (mrp inp) * (Fin 1 - Fin 0.60))%fl.

(** The state after the first [n] weeks: [for i in range(n)]. *)
Definition after_weeks (discounts : list R) (n : nat) : option state :=
  for_weeks discounts (seq 0 n) init.

Definition objective_function (discounts : list R) : option float :=
  match after_weeks discounts 4 with
  | None => None
  | Some st =>
      let total := (total_revenue st + residual_revenue st)%fl in
      Some (- total)%fl
  end.
End Objective.

(** [bounds = [(0.10, 0.60) for _ in range(4)]]. *)
Definition bounds : list (R * R) := map (fun _ => (0.10, 0.60)) (seq 0 4).

(** [d[i]] inside a constraint function; the optimiser always passes
    four values, a missing one reads as [0]. *)
Definition at_ (d : list R) (i : nat) : R := nth i d 0.

(** [constraints]: three ['ineq'] entries, each required to be [>= 0]. *)
Definition constraints : list (list R -> R) :=
  [ (fun d => at_ d 1 - at_ d 0);
    (fun d => at_ d 2 - at_ d 1);
    (fun d => at_ d 3 - at_ d 2) ].

Definition initial_guess : list R := [0.1; 0.2; 0.3; 0.4].

(** [scipy.optimize.OptimizeResult], the fields the script reads. *)
Record OptimizeResult : Type := mkResult {
  x : list R;
  fun_ : float;
  success : bool
}.

(** What part C prints. *)
Inductive report : Type :=
| Successful (optimal_discounts : list R) (max_revenue : float)
| Failed
| Skipped.

Section Optimise.
Variable inp : inputs.
(** [scipy.optimize.minimize] with [method='SLSQP']. *)
Variable minimize :
  (list R -> option float) -> list R -> list (R * R) -> list (list R -> R)
  -> OptimizeResult.

Definition solution (coef : params) : OptimizeResult :=
  minimize (objective_function inp coef) initial_guess bounds constraints.

(** The [try] block of part C; [model_log] is unbound ([NameError])
    when part B did not finish. *)
Definition part_c (model_log : outcome params) : report :=
  match model_log with
  | Raised _ => Skipped
  | Returned coef =>
      let s := solution coef in
      if success s then Successful (x s) (- fun_ s)%fl else Failed
  end.
End Optimise.

End PartC.

(* ================================================================== *)
(** * The Demand Simulator as the specification words it               *)
(* ================================================================== *)

(** This module follows the specification's text (section 4.3), not the
    script: an explicit state value handed from week to week, a
    per-week breakdown, and a result record.  It is compared with
    [PartC.objective_function] below. *)
Module Simulator.

Record ElasticityCoefficients : Type := mkCoefficients {
  intercept : R;
  beta_lag_sales : R;
  beta_log_discount : R;
  beta_lag_discount : R;
  beta_promo : R;
  beta_age : R
}.

Record SimulationState : Type := mkSimulationState {
  week_index : nat;
  log_lag_sales : float;
  log_lag_discount : float;
  remaining_inventory : float;
  current_age : Z
}.

Record WeekResult : Type := mkWeekResult {
  predicted_sales : float;
  actual_sales : float;
  revenue : float
}.

Record RevenueResult : Type := mkRevenueResult {
  total_revenue : float;
  per_week_breakdown : list WeekResult;
  residual_inventory : float;
  residual_revenue : float
}.

Section Run.
Variable k : ElasticityCoefficients.
Variable price : R.
Variable fixed_liquidation_discount : R.

(** Steps 1 to 5 for one week at discount [d]. *)
Definition step (s : SimulationState) (d : R) : WeekResult * SimulationState :=
  let predicted_log :=
    (Fin (intercept k)
     + Fin (beta_lag_sales k) * log_lag_sales s
     + Fin (beta_log_discount k) * np_log (Fin d)
     + Fin (beta_lag_discount k) * log_lag_discount s
     + Fin (beta_promo k) * Fin 1
     + Fin (beta_age k) * Fin (IZR (current_age s)))%fl in
  let predicted := np_exp predicted_log in
  let actual := py_min predicted (remaining_inventory s) in
  let weekly := (actual * Fin price * (Fin 1 - Fin d))%fl in
  (mkWeekResult predicted actual weekly,
   mkSimulationState (S (week_index s))
     (np_log (actual + Fin epsilon)%fl)
     (np_log (Fin d))
     (remaining_inventory s - actual)%fl
     (current_age s + 1)%Z).

(** The weeks in order, each one starting from the state the previous
    one left. *)
Fixpoint run (s : SimulationState) (discounts : list R)
  : list WeekResult * SimulationState :=
  match discounts with
  | [] => ([], s)
  | d :: rest =>
      let (w, s') := step s d in
      let (ws, s'') := run s' rest in
      (w :: ws, s'')
  end.

Definition simulate (s : SimulationState) (discounts : list R) : RevenueResult :=
  let (ws, s') := run s discounts in
  let residual :=
    (remaining_inventory s' * Fin price * (Fin 1 - Fin fixed_liquidation_discount))%fl in
  mkRevenueResult (py_sum (map revenue ws) + residual)%fl ws
    (remaining_inventory s') residual.
End Run.

(** The fitted parameters, read as the specification's coefficients. *)
Definition coefficients (p : PartB.params) : ElasticityCoefficients :=
  mkCoefficients (PartB.const p) (PartB.coef_log_lag_sales p)
    (PartB.coef_log_disc p) (PartB.coef_log_lag_disc p)
    (PartB.coef_promo_flag p) (PartB.coef_age p).

(** The starting state the script seeds from the week before the sale;
    the first sale week has age [age_start + 1]. *)
Definition start (inp : PartC.inputs) : SimulationState :=
  mkSimulationState 0
    (np_log (Fin (PartC.prev_sale inp)))
    (np_log (Fin (PartC.prev_disc inp)))
    (Fin (PartC.inv_start inp))
    (PartC.age_start inp + 1)%Z.

(** The script's state and the specification's state describe the same
    point of a run, [n] weeks in. *)
Definition agree (inp : PartC.inputs) (n : nat) (st : PartC.state)
  (s : SimulationState) : Prop :=
  PartC.current_inventory st = remaining_inventory s
  /\ PartC.log_lag_sales st = log_lag_sales s
  /\ PartC.log_lag_discount st = log_lag_discount s
  /\ current_age s = PartC.age_current_week inp n
  /\ week_index s = n.

End Simulator.

(* ================================================================== *)
(** * Part A: the store metrics before the clustering                  *)
(* ================================================================== *)

Module PartA.

(** [a / b] on numpy values: a division by zero raises nothing, it gives
    an infinity or [nan].  The zeros that reach the divisions below come
    from [fillna(0)] and from [Disc_Total + 1], so they are [+0]. *)
Definition fdiv (a b : float) : float :=
  match a, b with
  | NaN, _ | _, NaN => NaN
  | Fin x, Fin y =>
      if Rlt_dec 0 y then Fin (x / y)
      else if Rlt_dec y 0 then Fin (x / y)
      else scaled_inf x
  | Fin _, PInf | Fin _, NInf => Fin 0
  | PInf, Fin y => if Rlt_dec y 0 then NInf else PInf
  | NInf, Fin y => if Rlt_dec y 0 then PInf else NInf
  | PInf, PInf | PInf, NInf | NInf, PInf | NInf, NInf => NaN
  end.

(** A line of [data], with the columns the metrics read; a cell of a
    numeric column is what [pd.to_numeric(..., errors='coerce')] makes
    of it, [nan] when it is not a number.  [Zone] is left as read, absent
    when the cell is empty. *)
Record store : Type := mkStore {
  Store_Area : float;
  Zone : option String.string;
  Sales_Total : float;
  Disc_Total : float;
  COGS_Total : float
}.

(** [series.fillna(0)]. *)
Definition fillna (v : float) : float := if isna v then Fin 0 else v.

(** The loop over [cols_to_numeric]. *)
Definition to_numeric (s : store) : store :=
  mkStore (fillna (Store_Area s)) (Zone s) (fillna (Sales_Total s))
    (fillna (Disc_Total s)) (fillna (COGS_Total s)).

Definition Markdown_Sensitivity (s : store) : float :=
  fdiv (Sales_Total s) (Disc_Total s + Fin 1)%fl.

Definition Net_Profit (s : store) : float := (Sales_Total s - COGS_Total s)%fl.

Definition NP_Per_SqFt (s : store) : float := fdiv (Net_Profit s) (Store_Area s).

(** A line of [data_model]. *)
Record model_row : Type := mkModelRow {
  markdown_sensitivity : float;
  np_per_sqft : float;
  zone : option String.string
}.

(** [data[['Markdown_Sensitivity', 'NP_Per_SqFt', 'Zone']]]. *)
Definition select (s : store) : model_row :=
  mkModelRow (Markdown_Sensitivity s) (NP_Per_SqFt s) (Zone s).

(** [replace([np.inf, -np.inf], np.nan)] on one value. *)
Definition replace_inf (v : float) : float :=
  match v with
  | PInf | NInf => NaN
  | _ => v
  end.

Definition replace (r : model_row) : model_row :=
  mkModelRow (replace_inf (markdown_sensitivity r)) (replace_inf (np_per_sqft r))
    (zone r).

(** A line that [dropna()] removes: one of its three cells is missing. *)
Definition has_na (r : model_row) : bool :=
  isna (markdown_sensitivity r) || isna (np_per_sqft r)
  || match zone r with None => true | Some _ => false end.

(** [data_model] after [replace] and [dropna], before the capping. *)
Definition data_model (data : list store) : list model_row :=
  filter (fun r => negb (has_na r)) (map (fun s => replace (select (to_numeric s))) data).

Section Outliers.
(** [series.quantile(q)], from pandas. *)
Variable quantile : list float -> R -> float.

(** [np.where(series > q99, q99, series)]. *)
Definition treat_outliers (series : list float) : list float :=
  let q99 := quantile series 0.99 in
  map (fun v => if flt q99 v then q99 else v) series.

(** The two column assignments that follow. *)
Fixpoint assign (df : list model_row) (ms np : list float) : list model_row :=
  match df, ms, np with
  | r :: df', a :: ms', b :: np' => mkModelRow a b (zone r) :: assign df' ms' np'
  | _, _, _ => []
  end.

Definition capped (data : list store) : list model_row :=
  let df := data_model data in
  let ms := treat_outliers (map markdown_sensitivity df) in
  let df1 := assign df ms (map np_per_sqft df) in
  let np := treat_outliers (map np_per_sqft df1) in
  assign df1 (map markdown_sensitivity df1) np.
End Outliers.

End PartA.

(* ================================================================== *)
(** * api/index.py: the mock records and the clustering step           *)
(* ================================================================== *)

Module Api.
Import Stdlib.Strings.String.
Local Open Scope string_scope.
Local Open Scope Z_scope.

(** An entry of [personas]. *)
Record persona : Type := mkPersona {
  recency_range : Z * Z;
  freq_range : Z * Z;
  monetary_range : Z * Z;
  label : string;
  persona_cluster : Z;
  churn : Z
}.

Definition personas : list persona :=
  [ mkPersona (0, 15) (10, 20) (5000, 15000) "Gold" 0 5;
    mkPersona (15, 45) (5, 12) (2000, 6000) "Silver" 1 20;
    mkPersona (60, 180) (1, 5) (500, 2000) "Bronze" 2 60 ].

(** What the random module hands out for one customer, in the order of
    the calls: [random.choice(personas)], then the three
    [random.randint] over the persona's ranges and [random.randint(-10, 10)]. *)
Record draws : Type := mkDraws {
  choice : persona;
  recency_draw : Z;
  frequency_draw : Z;
  monetary_draw : Z;
  churn_draw : Z
}.

(** [random.choice] returns an element and [random.randint(a, b)] a
    number between [a] and [b], both included. *)
Definition in_range (d : draws) : Prop :=
  In (choice d) personas
  /\ fst (recency_range (choice d)) <= recency_draw d <= snd (recency_range (choice d))
  /\ fst (freq_range (choice d)) <= frequency_draw d <= snd (freq_range (choice d))
  /\ fst (monetary_range (choice d)) <= monetary_draw d
     <= snd (monetary_range (choice d))
  /\ -10 <= churn_draw d <= 10.

(** A record of [rfm_data]; [customerID] holds the number that follows
    ["CUST-"]. *)
Record customer : Type := mkCustomer {
  customerID : Z;
  recency : Z;
  frequency : Z;
  monetary : Z;
  cluster : Z;
  churnRisk : Z;
  predictedCLV : Z;
  nextPurchasePrediction : Z;
  avgInterPurchaseTime : Z;
  segmentLabel : string
}.

Definition churn_risk (d : draws) : Z :=
  Z.max 0 (Z.min 100 (churn (choice d) + churn_draw d)).

Definition avg_inter_purchase (recency frequency : Z) : Z :=
  if 1 <? frequency then recency / Z.max (frequency - 1) 1 else recency.

Definition next_purchase (recency frequency : Z) : Z :=
  Z.max 1 (avg_inter_purchase recency frequency - recency).

Section Mock.
(** The draws of customer [i]. *)
Variable random : nat -> draws.
(** [int((monetary / frequency) * (frequency / 12) * 12
         * (1 - churn_risk / 100))], a float computation, for a
    frequency that is not 0. *)
Variable predicted_clv : Z -> Z -> Z -> Z.

(** One pass through the loop body; [monetary / frequency] raises
    [ZeroDivisionError] ([None]) for a frequency of 0. *)
Definition dummy_customer (i : nat) : option customer :=
  let d := random i in
  let recency := recency_draw d in
  let frequency := frequency_draw d in
  let monetary := monetary_draw d in
  if frequency =? 0 then None
  else Some (mkCustomer (1000 + Z.of_nat i) recency frequency monetary
               (persona_cluster (choice d)) (churn_risk d)
               (predicted_clv monetary frequency (churn_risk d))
               (next_purchase recency frequency)
               (avg_inter_purchase recency frequency)
               (label (choice d))).

Fixpoint for_customers (range : list nat) : option (list customer) :=
  match range with
  | [] => Some []
  | i :: range' =>
      match dummy_customer i with
      | None => None
      | Some c =>
          match for_customers range' with
          | None => None
          | Some rest => Some (c :: rest)
          end
      end
  end.

Definition generate_dummy_rfm_data (num_customers : Z) : option (list customer) :=
  for_customers (seq 0 (Z.to_nat num_customers)).
End Mock.

(** A record of the real service's [rfm_data]; the key ["cluster"] is
    absent until the clustering adds it. *)
Record rfm : Type := mkRfm {
  rfm_customerID : string;
  rfm_recency : Z;
  rfm_frequency : Z;
  rfm_monetary : float;
  rfm_churnRisk : Z;
  rfm_predictedCLV : Z;
  rfm_nextPurchasePrediction : Z;
  rfm_avgInterPurchaseTime : Z;
  rfm_segmentLabel : string;
  rfm_cluster : option Z
}.

(** [{**data, "cluster": cluster_id, "segmentLabel": label}]. *)
Definition with_cluster (data : rfm) (cluster_id : Z) (label : string) : rfm :=
  mkRfm (rfm_customerID data) (rfm_recency data) (rfm_frequency data)
    (rfm_monetary data) (rfm_churnRisk data) (rfm_predictedCLV data)
    (rfm_nextPurchasePrediction data) (rfm_avgInterPurchaseTime data)
    label (Some cluster_id).

Record centroid : Type := mkCentroid {
  id : Z;
  centroid_label : string;
  color : string;
  icon : string;
  description : string;
  avgRecency : Z;
  avgFrequency : Z;
  avgMonetary : Z;
  count : Z
}.

Definition generate_dummy_centroids : list centroid :=
  [ mkCentroid 0 "Gold (VIP)" "#fbbf24" "👑" "High Value, Frequent" 8 15 9500 167;
    mkCentroid 1 "Silver (Active)" "#8b5cf6" "🌱" "Loyal, Regular" 30 8 4000 200;
    mkCentroid 2 "Bronze (Risk)" "#f43f5e" "⚠️" "Low Value, At Risk" 120 3 1200 133 ].

(** [l[i]] on a Python list: a negative index counts from the end, an
    index outside the list raises [IndexError] ([None]). *)
Definition py_index {A : Type} (l : list A) (i : Z) : option A :=
  if 0 <=? i then nth_error l (Z.to_nat i)
  else if - Z.of_nat (List.length l) <=? i
       then nth_error l (Z.to_nat (Z.of_nat (List.length l) + i))
       else None.

(** The labels the cluster numbers are turned into. *)
Definition segment_labels : list string := ["Gold"; "Silver"; "Bronze"].

Section Clustering.
(** Lines 334-341: the normalisation and [KMeans(...).fit_predict], one
    cluster number per record. *)
Variable fit_predict : list rfm -> list Z.
(** [int(np.mean(values))]. *)
Variable int_mean : list float -> Z.

(** The loop that assigns the clusters; [clusters[i]] and the label
    lookup raise [IndexError] ([None]) outside their lists. *)
Fixpoint assign_clusters (rfm_data : list rfm) (clusters : list Z) (i : nat)
  : option (list rfm) :=
  match rfm_data with
  | [] => Some []
  | data :: rest =>
      match nth_error clusters i with
      | None => None
      | Some cluster_id =>
          match py_index segment_labels cluster_id with
          | None => None
          | Some label =>
              match assign_clusters rest clusters (S i) with
              | None => None
              | Some clustered => Some (with_cluster data cluster_id label :: clustered)
              end
          end
      end
  end.

(** [[d for d in clustered_data if d['cluster'] == i]]. *)
Definition cluster_points (clustered_data : list rfm) (i : Z) : list rfm :=
  filter (fun d => match rfm_cluster d with
                   | Some c => c =? i
                   | None => false
                   end) clustered_data.

(** The centroid of cluster [i]: computed from its records, or the dummy
    one when the cluster is empty. *)
Definition centroid_of (clustered_data : list rfm) (i : nat) : option centroid :=
  let points := cluster_points clustered_data (Z.of_nat i) in
  match points with
  | [] => nth_error generate_dummy_centroids i
  | _ :: _ =>
      match nth_error ["Gold (VIP)"; "Silver (Active)"; "Bronze (Risk)"] i,
            nth_error ["#fbbf24"; "#8b5cf6"; "#f43f5e"] i,
            nth_error ["👑"; "🌱"; "⚠️"] i,
            nth_error ["High Value, Frequent"; "Loyal, Regular"; "Low Value, At Risk"] i
      with
      | Some l, Some c, Some ic, Some de =>
          Some (mkCentroid (Z.of_nat i) l c ic de
                  (int_mean (map (fun d => Fin (IZR (rfm_recency d))) points))
                  (int_mean (map (fun d => Fin (IZR (rfm_frequency d))) points))
                  (int_mean (map rfm_monetary points))
                  (Z.of_nat (List.length points)))
      | _, _, _, _ => None
      end
  end.

Definition _perform_clustering (rfm_data : list rfm)
  : option (list rfm * list centroid) :=
  if (List.length rfm_data <? 3)%nat then Some (rfm_data, generate_dummy_centroids)
  else
    match assign_clusters rfm_data (fit_predict rfm_data) 0 with
    | None => None
    | Some clustered_data =>
        match centroid_of clustered_data 0, centroid_of clustered_data 1,
              centroid_of clustered_data 2 with
        | Some c0, Some c1, Some c2 => Some (clustered_data, [c0; c1; c2])
        | _, _, _ => None
        end
    end.
End Clustering.

(** Draws of a Gold customer, and three records of the real service. *)
Definition gold_draws : draws :=
  mkDraws (mkPersona (0, 15) (10, 20) (5000, 15000) "Gold" 0 5) 8 15 9500 0.

Definition three_records : list rfm :=
  [ mkRfm "a" 3 12 (Fin 9000) 1 10800 1 1 "Processing..." None;
    mkRfm "b" 40 6 (Fin 3000) 13 3600 10 6 "Processing..." None;
    mkRfm "c" 100 2 (Fin 800) 33 960 70 50 "Processing..." None ].

End Api.

(* ================================================================== *)
(** * Example data                                                     *)
(* ================================================================== *)

(** The coefficient values of the end-to-end scenario. *)
Definition fixture_coefficients : PartB.params :=
  PartB.mkParams 0.5 0.3 0.9 (-0.2) 0.4 (-0.01).

(** The case inputs with one unit in stock. *)
Definition one_unit_inputs : PartC.inputs := PartC.mkInputs 1 96 0.579 48 606.

(** A discount of 0.6 in every week, and the same with two weeks without
    discount in the middle. *)
Definition flat_discounts : list R := [0.6; 0.6; 0.6; 0.6].
Definition saturating_discounts : list R := [0.6; 0; 0; 0.6].

(** The case inputs with no discount in the week before the sale. *)
Definition zero_discount_inputs : PartC.inputs := PartC.mkInputs 2476 96 0 48 606.

(** The case inputs with a negative stock. *)
Definition negative_stock_inputs : PartC.inputs :=
  PartC.mkInputs (-1) 96 0.579 48 606.

(** Two consecutive weeks of 2014, and a week with no sales and no
    discount. *)
Definition week_1 : PartB.row := PartB.mkRow 2014 1 10 0.1 0 5.
Definition week_2 : PartB.row := PartB.mkRow 2014 2 12 0.2 0 6.
Definition week_3 : PartB.row := PartB.mkRow 2014 3 0 0 0 7.

(** A discount vector that starts with two weeks without discount. *)
Definition zero_start_discounts : list R := [0; 0; 0.3; 0.4].

(** The sort key of a line. *)
Definition row_key (r : PartB.row) : Z * Z := (PartB.year_no r, PartB.week_no r).

(** A week with more returns than sales. *)
Definition returns_week : PartB.row := PartB.mkRow 2014 2 (-5) 0.2 0 6.

(** The frame line of [returns_week] when it follows [week_1]. *)
Definition returns_row : PartB.frow :=
  PartB.mkFrow returns_week
    (np_log (Fin (PartB.sales_units returns_week) + Fin epsilon)%fl)
    (np_log (Fin (PartB.sales_units week_1) + Fin epsilon)%fl)
    (np_log (Fin (PartB.discount_per returns_week) + Fin epsilon)%fl)
    (np_log (Fin (PartB.discount_per week_1) + Fin epsilon)%fl)
    (PartB.promo_week_flg returns_week).

(** A fourth week, and the last week of 2014 with the first of 2015. *)
Definition week_4 : PartB.row := PartB.mkRow 2014 4 7 0.3 0 8.
Definition week_52 : PartB.row := PartB.mkRow 2014 52 11 0.3 1 57.
Definition week_53 : PartB.row := PartB.mkRow 2015 1 9 0.3 1 58.

(* ================================================================== *)
(** * Float arithmetic facts                                           *)
(* ================================================================== *)

Lemma epsilon_pos : 0 < epsilon.
Proof. unfold epsilon; lra. Qed.

Lemma np_log_pos (v : R) : 0 < v -> np_log (Fin v) = Fin (ln v).
Proof.
  intros Hv; unfold np_log.
  destruct (Rlt_dec 0 v); [reflexivity | contradiction].
Qed.

Lemma np_log_zero : np_log (Fin 0) = NInf.
Proof.
  unfold np_log.
  destruct (Rlt_dec 0 0) as [H | _]; [lra |].
  destruct (Rlt_dec 0 0) as [H | _]; [lra | reflexivity].
Qed.

Lemma np_log_neg (v : R) : v < 0 -> np_log (Fin v) = NaN.
Proof.
  intros Hv; unfold np_log.
  destruct (Rlt_dec 0 v); [lra |].
  destruct (Rlt_dec v 0); [reflexivity | contradiction].
Qed.

Lemma scaled_inf_pos (v : R) : 0 < v -> scaled_inf v = PInf.
Proof.
  intros Hv; unfold scaled_inf.
  destruct (Rlt_dec 0 v); [reflexivity | contradiction].
Qed.

Lemma scaled_inf_neg (v : R) : v < 0 -> scaled_inf v = NInf.
Proof.
  intros Hv; unfold scaled_inf.
  destruct (Rlt_dec 0 v); [lra |].
  destruct (Rlt_dec v 0); [reflexivity | contradiction].
Qed.

Lemma scaled_inf_zero : scaled_inf 0 = NaN.
Proof.
  unfold scaled_inf.
  destruct (Rlt_dec 0 0) as [H | _]; [lra |].
  destruct (Rlt_dec 0 0) as [H | _]; [lra | reflexivity].
Qed.

Lemma scaled_inf_not_finite (v : R) : ~ is_finite (scaled_inf v).
Proof.
  unfold scaled_inf.
  destruct (Rlt_dec 0 v); [intros [] |].
  destruct (Rlt_dec v 0); intros [].
Qed.

(** The capped sales of two finite values is the smaller one. *)
Lemma py_min_fin (p v : R) : py_min (Fin p) (Fin v) = Fin (Rmin p v).
Proof.
  unfold py_min, flt, Rmin.
  destruct (Rlt_dec v p), (Rle_dec p v); try reflexivity; lra.
Qed.

(** [log(v + epsilon)] of a value that is not negative is finite. *)
Lemma log_eps_nonneg (v : R) :
  0 <= v -> np_log (Fin v + Fin epsilon)%fl = Fin (ln (v + epsilon)).
Proof.
  intros Hv; cbn [fadd]; apply np_log_pos; pose proof epsilon_pos; lra.
Qed.

(** A sum that has a term which is not finite is not finite. *)
Lemma fadd_not_finite_l (a b : float) : ~ is_finite a -> ~ is_finite (a + b)%fl.
Proof. destruct a, b; simpl; tauto. Qed.

Lemma fadd_not_finite_r (a b : float) : ~ is_finite b -> ~ is_finite (a + b)%fl.
Proof. destruct a, b; simpl; tauto. Qed.

(** A finite coefficient times an infinity is never finite. *)
Lemma fmul_ninf_not_finite (c : R) : ~ is_finite (Fin c * NInf)%fl.
Proof. simpl. apply scaled_inf_not_finite. Qed.

(* ================================================================== *)
(** * The objective function against the specified simulator           *)
(* ================================================================== *)

Section Refinement.
Variable inp : PartC.inputs.
Variable coef : PartB.params.

(** One pass through the loop body is one specified step. *)
Lemma week_is_step (n : nat) (st : PartC.state) (s : Simulator.SimulationState) (d : R) :
  Simulator.agree inp n st s ->
  PartC.predicted_sales inp coef st n d
    = Simulator.predicted_sales (fst (Simulator.step (Simulator.coefficients coef) (PartC.mrp inp) s d))
  /\ PartC.actual_sales inp coef st n d
    = Simulator.actual_sales (fst (Simulator.step (Simulator.coefficients coef) (PartC.mrp inp) s d))
  /\ PartC.weekly_revenue inp coef st n d
    = Simulator.revenue (fst (Simulator.step (Simulator.coefficients coef) (PartC.mrp inp) s d))
  /\ Simulator.agree inp (S n) (PartC.week inp coef st n d)
       (snd (Simulator.step (Simulator.coefficients coef) (PartC.mrp inp) s d)).
Proof.
  intros (Hinv & Hls & Hld & Hage & Hidx).
  unfold PartC.weekly_revenue, PartC.actual_sales, PartC.predicted_sales,
    PartC.pred_log_sales, PartC.is_promo_week, Simulator.agree, Simulator.step.
  cbn [fst snd Simulator.predicted_sales Simulator.actual_sales Simulator.revenue
       Simulator.remaining_inventory Simulator.log_lag_sales
       Simulator.log_lag_discount Simulator.current_age Simulator.week_index
       PartC.week PartC.current_inventory PartC.log_lag_sales
       PartC.log_lag_discount].
  unfold PartC.actual_sales, PartC.predicted_sales, PartC.pred_log_sales,
    PartC.is_promo_week.
  cbn [Simulator.coefficients Simulator.intercept
    Simulator.beta_lag_sales Simulator.beta_log_discount
    Simulator.beta_lag_discount Simulator.beta_promo Simulator.beta_age].
  rewrite Hinv, Hls, Hld, Hage, Hidx.
  repeat split; try reflexivity.
  unfold PartC.age_current_week; lia.
Qed.

(** The loop over the weeks [length pre, length pre + length ds) is the
    specified run over [ds]; the revenue accumulates left to right. *)
Lemma for_weeks_is_run (ds : list R) :
  forall (pre : list R) (st : PartC.state) (s : Simulator.SimulationState),
    Simulator.agree inp (length pre) st s ->
    exists st',
      PartC.for_weeks inp coef (pre ++ ds) (seq (length pre) (length ds)) st
        = Some st'
      /\ PartC.total_revenue st'
         = fold_left fadd
             (map Simulator.revenue (fst (Simulator.run (Simulator.coefficients coef) (PartC.mrp inp) s ds)))
             (PartC.total_revenue st)
      /\ Simulator.agree inp (length pre + length ds) st'
           (snd (Simulator.run (Simulator.coefficients coef) (PartC.mrp inp) s ds)).
Proof.
  induction ds as [| d rest IH]; intros pre st s Hag.
  - exists st; cbn; rewrite Nat.add_0_r; auto.
  - destruct (week_is_step (length pre) st s d Hag) as (_ & _ & Hrev & Hag').
    cbn [length seq PartC.for_weeks].
    rewrite nth_error_app2, Nat.sub_diag by lia; cbn [nth_error].
    specialize (IH (pre ++ [d]) (PartC.week inp coef st (length pre) d)
                  (snd (Simulator.step (Simulator.coefficients coef) (PartC.mrp inp) s d))).
    rewrite <- app_assoc, length_app in IH; cbn [length app] in IH.
    rewrite Nat.add_1_r in IH.
    destruct (IH Hag') as (st' & Hloop & Htot & Hfin).
    exists st'; split; [exact Hloop |].
    cbn [Simulator.run].
    destruct (Simulator.step (Simulator.coefficients coef) (PartC.mrp inp) s d) as [w s1] eqn:Hstep.
    cbn [fst snd] in *.
    destruct (Simulator.run (Simulator.coefficients coef) (PartC.mrp inp) s1 rest) as [ws s2] eqn:Hrun.
    cbn [fst snd map fold_left] in *.
    rewrite Htot; cbn [PartC.week PartC.total_revenue]; rewrite Hrev.
    split; [reflexivity |].
    replace (length pre + S (length rest))%nat
      with (S (length pre) + length rest)%nat by lia.
    exact Hfin.
Qed.

Lemma start_agrees : Simulator.agree inp 0 (PartC.init inp) (Simulator.start inp).
Proof.
  unfold Simulator.agree, PartC.init, Simulator.start, PartC.age_current_week.
  cbn; repeat split; lia.
Qed.

Lemma run_length (ds : list R) :
  forall s, length (fst (Simulator.run (Simulator.coefficients coef) (PartC.mrp inp) s ds)) = length ds.
Proof.
  induction ds as [| d rest IH]; intros s; [reflexivity |].
  cbn [Simulator.run].
  destruct (Simulator.step (Simulator.coefficients coef) (PartC.mrp inp) s d) as [w s1].
  specialize (IH s1).
  destruct (Simulator.run (Simulator.coefficients coef) (PartC.mrp inp) s1 rest) as [ws s2].
  cbn in *; congruence.
Qed.
End Refinement.

(** C1.  For a four-week discount vector, the script's objective function
    is the specified Demand Simulator: the weeks i = 0..3 are processed in
    order, week i predicts log sales as
    const + b_lag_sales*log_lag_sales + b_log_disc*log(discount[i])
    + b_lag_disc*log_lag_discount + b_promo*1 + b_age*age(i) with
    age(i) = age_start + i + 1, takes the exponential, caps it by the
    remaining inventory, earns actual_sales * mrp * (1 - discount[i]),
    then lowers the inventory and sets the two lags from this week's
    actual sales (plus epsilon) and discount and raises the age by one.
    The total revenue is the sum of the four weekly revenues plus the
    residual revenue remaining_inventory * mrp * (1 - 0.60), added once;
    the function hands its negation to the minimiser. *)
Theorem objective_function_is_simulation
  (inp : PartC.inputs) (coef : PartB.params) (d0 d1 d2 d3 : R) :
  let r := Simulator.simulate (Simulator.coefficients coef) (PartC.mrp inp) 0.60
             (Simulator.start inp) [d0; d1; d2; d3] in
  PartC.objective_function inp coef [d0; d1; d2; d3]
    = Some (- Simulator.total_revenue r)%fl
  /\ length (Simulator.per_week_breakdown r) = 4%nat
  /\ Simulator.total_revenue r
     = (py_sum (map Simulator.revenue (Simulator.per_week_breakdown r))
        + Simulator.residual_revenue r)%fl
  /\ Simulator.residual_revenue r
     = (Simulator.residual_inventory r * Fin (PartC.mrp inp) * (Fin 1 - Fin 0.60))%fl.
Proof.
  intros r.
  destruct (for_weeks_is_run inp coef [d0; d1; d2; d3] [] (PartC.init inp)
              (Simulator.start inp) (start_agrees inp))
    as (st' & Hloop & Htot & Hag).
  pose proof (run_length inp coef [d0; d1; d2; d3] (Simulator.start inp)) as Hlen.
  subst r; unfold Simulator.simulate.
  destruct (Simulator.run (Simulator.coefficients coef) (PartC.mrp inp)
              (Simulator.start inp) [d0; d1; d2; d3]) as [ws s'] eqn:Hrun.
  cbn [fst snd] in *.
  cbn [Simulator.total_revenue Simulator.per_week_breakdown
       Simulator.residual_revenue Simulator.residual_inventory].
  repeat split; try assumption.
  unfold PartC.objective_function, PartC.after_weeks.
  cbn [app length] in Hloop; rewrite Hloop.
  destruct Hag as (Hinv & _).
  unfold PartC.residual_revenue, py_sum.
  rewrite Htot, Hinv; reflexivity.
Qed.

(* ================================================================== *)
(** * Inventory along a run                                            *)
(* ================================================================== *)

Lemma for_weeks_app (inp : PartC.inputs) (coef : PartB.params) (ds : list R)
  (r1 r2 : list nat) :
  forall st,
    PartC.for_weeks inp coef ds (r1 ++ r2) st
    = match PartC.for_weeks inp coef ds r1 st with
      | Some st1 => PartC.for_weeks inp coef ds r2 st1
      | None => None
      end.
Proof.
  induction r1 as [| i r1 IH]; intros st; cbn; [reflexivity |].
  destruct (nth_error ds i); [apply IH | reflexivity].
Qed.

(** One more week of the loop. *)
Lemma after_weeks_S (inp : PartC.inputs) (coef : PartB.params) (ds : list R) (n : nat) :
  PartC.after_weeks inp coef ds (S n)
  = match PartC.after_weeks inp coef ds n with
    | Some st =>
        match nth_error ds n with
        | Some d => Some (PartC.week inp coef st n d)
        | None => None
        end
    | None => None
    end.
Proof.
  unfold PartC.after_weeks.
  rewrite seq_S, for_weeks_app; cbn.
  destruct (PartC.for_weeks inp coef ds (seq 0 n) (PartC.init inp)); [| reflexivity].
  destruct (nth_error ds n); reflexivity.
Qed.

(** A week that starts with a finite, non-negative inventory and finite
    lags, at a positive discount: every value of the week is finite, the
    sale is the smaller of the prediction and the inventory. *)
Lemma week_finite (inp : PartC.inputs) (coef : PartB.params) (st : PartC.state)
  (n : nat) (d v ls ld : R) :
  PartC.current_inventory st = Fin v -> 0 <= v ->
  PartC.log_lag_sales st = Fin ls ->
  PartC.log_lag_discount st = Fin ld ->
  0 < d ->
  exists p,
    0 < p
    /\ PartC.pred_log_sales inp coef st n d = Fin (ln p)
    /\ PartC.predicted_sales inp coef st n d = Fin p
    /\ PartC.actual_sales inp coef st n d = Fin (Rmin p v)
    /\ PartC.current_inventory (PartC.week inp coef st n d) = Fin (v - Rmin p v)
    /\ PartC.log_lag_sales (PartC.week inp coef st n d) = Fin (ln (Rmin p v + epsilon))
    /\ PartC.log_lag_discount (PartC.week inp coef st n d) = Fin (ln d).
Proof.
  intros Hv Hv0 Hls Hld Hd.
  assert (Hlog : exists t, PartC.pred_log_sales inp coef st n d = Fin t).
  { unfold PartC.pred_log_sales.
    rewrite Hls, Hld, (np_log_pos d Hd); cbn [fmul fadd]; eauto. }
  destruct Hlog as [t Ht].
  exists (exp t).
  assert (Hp : 0 < exp t) by apply exp_pos.
  assert (Hact : PartC.actual_sales inp coef st n d = Fin (Rmin (exp t) v)).
  { unfold PartC.actual_sales, PartC.predicted_sales.
    rewrite Ht, Hv; cbn [np_exp]; apply py_min_fin. }
  assert (Hmin : 0 <= Rmin (exp t) v) by (apply Rmin_glb; lra).
  repeat split.
  - exact Hp.
  - rewrite ln_exp; exact Ht.
  - unfold PartC.predicted_sales; rewrite Ht; reflexivity.
  - exact Hact.
  - cbn [PartC.week PartC.current_inventory]; rewrite Hact, Hv; reflexivity.
  - cbn [PartC.week PartC.log_lag_sales]; rewrite Hact; cbn [fadd].
    apply np_log_pos; pose proof epsilon_pos; lra.
  - cbn [PartC.week PartC.log_lag_discount]; apply np_log_pos; exact Hd.
Qed.

(** With a non-negative starting inventory, positive lag seeds and
    positive discounts, the state after any number of weeks has a
    finite, non-negative inventory and finite lags. *)
Lemma after_weeks_finite (inp : PartC.inputs) (coef : PartB.params) (ds : list R) :
  0 <= PartC.inv_start inp ->
  0 < PartC.prev_sale inp ->
  0 < PartC.prev_disc inp ->
  Forall (fun d => 0 < d) ds ->
  forall n, (n <= length ds)%nat ->
    exists st v ls ld,
      PartC.after_weeks inp coef ds n = Some st
      /\ PartC.current_inventory st = Fin v /\ 0 <= v
      /\ PartC.log_lag_sales st = Fin ls
      /\ PartC.log_lag_discount st = Fin ld.
Proof.
  intros Hinv Hsale Hdisc Hds n.
  induction n as [| n IH]; intros Hn.
  - exists (PartC.init inp), (PartC.inv_start inp),
      (ln (PartC.prev_sale inp)), (ln (PartC.prev_disc inp)).
    unfold PartC.after_weeks; cbn [seq PartC.for_weeks PartC.init
      PartC.current_inventory PartC.log_lag_sales PartC.log_lag_discount].
    repeat split; auto using np_log_pos.
  - destruct IH as (st & v & ls & ld & Hst & Hv & Hv0 & Hls & Hld); [lia |].
    destruct (nth_error ds n) as [d |] eqn:Hd;
      [| apply nth_error_None in Hd; lia].
    assert (Hdpos : 0 < d).
    { rewrite Forall_forall in Hds; apply Hds; eapply nth_error_In; eauto. }
    destruct (week_finite inp coef st n d v ls ld Hv Hv0 Hls Hld Hdpos)
      as (p & Hp & _ & _ & _ & Hinv' & Hls' & Hld').
    exists (PartC.week inp coef st n d), (v - Rmin p v),
      (ln (Rmin p v + epsilon)), (ln d).
    rewrite after_weeks_S, Hst, Hd.
    repeat split; auto.
    pose proof (Rmin_r p v); lra.
Qed.

(** The exponential is a number >= 0, [+inf] or [nan], and [nan] only
    of [nan]. *)
Lemma np_exp_range (a : float) :
  (exists p, 0 <= p /\ np_exp a = Fin p) \/ np_exp a = PInf \/ a = NaN.
Proof.
  destruct a as [t | | |]; cbn; auto.
  - left; exists (exp t); split; [left; apply exp_pos | reflexivity].
  - left; exists 0; split; [lra | reflexivity].
Qed.

Lemma py_min_nan (b : float) : py_min NaN b = NaN.
Proof. destruct b; reflexivity. Qed.

(** A week whose predicted log sales are [nan] leaves a [nan]
    inventory. *)
Lemma week_nan_inventory (inp : PartC.inputs) (coef : PartB.params)
  (st : PartC.state) (n : nat) (d : R) :
  PartC.pred_log_sales inp coef st n d = NaN ->
  PartC.current_inventory (PartC.week inp coef st n d) = NaN.
Proof.
  intros Hnan; cbn [PartC.week PartC.current_inventory].
  unfold PartC.actual_sales, PartC.predicted_sales.
  rewrite Hnan; cbn [np_exp]; rewrite py_min_nan.
  destruct (PartC.current_inventory st); reflexivity.
Qed.

(** A week whose predicted log sales are not [nan], from an inventory
    that is a number: the sale and the new inventory are numbers, and
    from a non-negative inventory the sale lies between 0 and it. *)
Lemma week_without_nan (inp : PartC.inputs) (coef : PartB.params)
  (st : PartC.state) (n : nat) (d v : R) :
  PartC.current_inventory st = Fin v ->
  PartC.pred_log_sales inp coef st n d <> NaN ->
  exists a,
    PartC.actual_sales inp coef st n d = Fin a
    /\ PartC.current_inventory (PartC.week inp coef st n d) = Fin (v - a)
    /\ (0 <= v -> 0 <= a <= v).
Proof.
  intros Hv Hnan.
  cbn [PartC.week PartC.current_inventory].
  unfold PartC.actual_sales, PartC.predicted_sales; rewrite Hv.
  destruct (np_exp_range (PartC.pred_log_sales inp coef st n d))
    as [(p & Hp & ->) | [-> | H]]; [| | contradiction].
  - exists (Rmin p v); rewrite py_min_fin.
    split; [reflexivity |]. split; [reflexivity |].
    intros Hv0; pose proof (Rmin_r p v).
    assert (0 <= Rmin p v) by (apply Rmin_glb; lra); lra.
  - exists v; split; [reflexivity |]. split; [reflexivity | lra].
Qed.

(** The inventory of a state the loop reaches is a number or [nan]. *)
Lemma after_weeks_inventory_shape (inp : PartC.inputs) (coef : PartB.params)
  (ds : list R) :
  forall n st,
    PartC.after_weeks inp coef ds n = Some st ->
    (exists v, PartC.current_inventory st = Fin v)
    \/ PartC.current_inventory st = NaN.
Proof.
  induction n as [| n IH]; intros st Hst.
  - injection Hst as <-; left; exists (PartC.inv_start inp); reflexivity.
  - rewrite after_weeks_S in Hst.
    destruct (PartC.after_weeks inp coef ds n) as [st0 |]; [| discriminate].
    destruct (nth_error ds n) as [d |]; [| discriminate].
    injection Hst as <-.
    destruct (IH st0 eq_refl) as [[v Hv] | Hnan].
    + destruct (np_exp_range (PartC.pred_log_sales inp coef st0 n d))
        as [(p & Hp & Hexp) | [Hexp | Hlog]].
      * left; exists (v + - Rmin p v).
        cbn [PartC.week PartC.current_inventory].
        unfold PartC.actual_sales, PartC.predicted_sales.
        rewrite Hv, Hexp, py_min_fin; reflexivity.
      * left; exists (v + - v).
        cbn [PartC.week PartC.current_inventory].
        unfold PartC.actual_sales, PartC.predicted_sales.
        rewrite Hv, Hexp; reflexivity.
      * right; apply week_nan_inventory; exact Hlog.
    + right; cbn [PartC.week PartC.current_inventory]; rewrite Hnan; reflexivity.
Qed.

(** Every week of a vector of four discounts is reached. *)
Lemma after_weeks_defined (inp : PartC.inputs) (coef : PartB.params) (ds : list R) :
  forall n, (n <= length ds)%nat ->
    exists st, PartC.after_weeks inp coef ds n = Some st.
Proof.
  induction n as [| n IH]; intros Hn.
  - exists (PartC.init inp); reflexivity.
  - destruct IH as [st Hst]; [lia |].
    destruct (nth_error ds n) as [d |] eqn:Hd;
      [| apply nth_error_None in Hd; lia].
    exists (PartC.week inp coef st n d); rewrite after_weeks_S, Hst, Hd; reflexivity.
Qed.

(** As long as no week has predicted [nan], the inventory is a number
    between 0 and the starting inventory. *)
Lemma after_weeks_without_nan (inp : PartC.inputs) (coef : PartB.params) (ds : list R) :
  0 <= PartC.inv_start inp ->
  forall n, (n <= length ds)%nat ->
    (forall m st d, (m < n)%nat ->
       PartC.after_weeks inp coef ds m = Some st ->
       nth_error ds m = Some d ->
       PartC.pred_log_sales inp coef st m d <> NaN) ->
    exists st v,
      PartC.after_weeks inp coef ds n = Some st
      /\ PartC.current_inventory st = Fin v
      /\ 0 <= v <= PartC.inv_start inp.
Proof.
  intros Hinv n.
  induction n as [| n IH]; intros Hn Hnonan.
  - exists (PartC.init inp), (PartC.inv_start inp).
    repeat split; try reflexivity; lra.
  - destruct IH as (st & v & Hst & Hv & Hv0); [lia | |].
    { intros m st d Hm; apply Hnonan; lia. }
    destruct (nth_error ds n) as [d |] eqn:Hd;
      [| apply nth_error_None in Hd; lia].
    destruct (week_without_nan inp coef st n d v Hv) as (a & _ & Hinv' & Ha).
    { apply (Hnonan n st d); auto. }
    exists (PartC.week inp coef st n d), (v - a).
    rewrite after_weeks_S, Hst, Hd.
    split; [reflexivity |]. split; [exact Hinv' |].
    specialize (Ha (proj1 Hv0)); lra.
Qed.

(** Two weeks without discount in a row, at a positive coefficient of
    the discount and a negative one of the lagged discount: the second
    week predicts [0.9 * -inf + (-0.2) * -inf], which is [nan]. *)
Lemma second_zero_discount_nan (inp : PartC.inputs) (coef : PartB.params)
  (st : PartC.state) (n m : nat) (v ls ld : R) :
  0 < PartB.coef_log_disc coef ->
  PartB.coef_log_lag_disc coef < 0 ->
  PartC.current_inventory st = Fin v -> 0 <= v ->
  PartC.log_lag_sales st = Fin ls ->
  PartC.log_lag_discount st = Fin ld ->
  PartC.pred_log_sales inp coef (PartC.week inp coef st n 0) m 0 = NaN.
Proof.
  intros Hpos Hneg Hv Hv0 Hls Hld.
  assert (Hfirst : PartC.pred_log_sales inp coef st n 0 = NInf).
  { unfold PartC.pred_log_sales.
    rewrite Hls, Hld, np_log_zero; cbn [fmul fadd].
    rewrite scaled_inf_neg by lra; reflexivity. }
  unfold PartC.pred_log_sales.
  cbn [PartC.week PartC.log_lag_sales PartC.log_lag_discount].
  unfold PartC.actual_sales, PartC.predicted_sales.
  rewrite Hfirst, Hv; cbn [np_exp].
  rewrite py_min_fin, np_log_zero.
  rewrite log_eps_nonneg by (apply Rmin_glb; lra).
  cbn [fmul fadd].
  rewrite scaled_inf_neg, scaled_inf_pos by lra; reflexivity.
Qed.

(** C2 (as amended).  Along a four-week run from a starting inventory
    >= 0, for every discount vector: as long as no week so far has
    predicted [nan] log sales, each week leaves a remaining inventory
    that is a number >= 0 and not above the inventory the week started
    with.  No week predicts [nan] when the lag seeds and every discount
    are strictly positive (the optimiser's candidates are at least
    0.10). *)
Theorem inventory_nonnegative_nonincreasing
  (inp : PartC.inputs) (coef : PartB.params) (discounts : list R) :
  0 <= PartC.inv_start inp ->
  length discounts = 4%nat ->
  forall n, (n < 4)%nat ->
    exists before after d,
      PartC.after_weeks inp coef discounts n = Some before
      /\ nth_error discounts n = Some d
      /\ PartC.after_weeks inp coef discounts (S n) = Some after
      /\ ((forall m st d', (m <= n)%nat ->
             PartC.after_weeks inp coef discounts m = Some st ->
             nth_error discounts m = Some d' ->
             PartC.pred_log_sales inp coef st m d' <> NaN) ->
          (exists v v',
             PartC.current_inventory before = Fin v
             /\ PartC.current_inventory after = Fin v'
             /\ 0 <= v' <= v)
          /\ fge (PartC.current_inventory after) (Fin 0) = true
          /\ fge (PartC.current_inventory before) (PartC.current_inventory after)
             = true)
      /\ (0 < PartC.prev_sale inp ->
          0 < PartC.prev_disc inp ->
          Forall (fun d => 0 < d) discounts ->
          (exists v v',
             PartC.current_inventory before = Fin v
             /\ PartC.current_inventory after = Fin v'
             /\ 0 <= v' <= v)
          /\ fge (PartC.current_inventory after) (Fin 0) = true
          /\ fge (PartC.current_inventory before) (PartC.current_inventory after)
             = true).
Proof.
  intros Hinv Hlen n Hn.
  destruct (after_weeks_defined inp coef discounts n) as [st Hst]; [lia |].
  destruct (nth_error discounts n) as [d |] eqn:Hd;
    [| apply nth_error_None in Hd; lia].
  exists st, (PartC.week inp coef st n d), d.
  rewrite after_weeks_S, Hst, Hd.
  split; [reflexivity |]. split; [reflexivity |]. split; [reflexivity |].
  assert (Hnumbers : forall v v',
            PartC.current_inventory st = Fin v ->
            PartC.current_inventory (PartC.week inp coef st n d) = Fin v' ->
            0 <= v' <= v ->
            (exists w w',
               PartC.current_inventory st = Fin w
               /\ PartC.current_inventory (PartC.week inp coef st n d) = Fin w'
               /\ 0 <= w' <= w)
            /\ fge (PartC.current_inventory (PartC.week inp coef st n d)) (Fin 0) = true
            /\ fge (PartC.current_inventory st)
                   (PartC.current_inventory (PartC.week inp coef st n d)) = true).
  { intros v v' Hv Hv' Hle.
    split; [exists v, v'; auto |].
    rewrite Hv, Hv'; unfold fge.
    destruct (Rle_dec 0 v'), (Rle_dec v' v); auto; lra. }
  split.
  - intros Hnonan.
    destruct (after_weeks_without_nan inp coef discounts Hinv n)
      as (st' & v & Hst' & Hv & Hv0); [lia | |].
    { intros m s d' Hm; apply Hnonan; lia. }
    rewrite Hst in Hst'; injection Hst' as <-.
    destruct (week_without_nan inp coef st n d v Hv) as (a & _ & Hinv' & Ha).
    { apply (Hnonan n st d); auto. }
    specialize (Ha (proj1 Hv0)).
    apply (Hnumbers v (v - a)); auto; lra.
  - intros Hsale Hdisc Hds.
    destruct (after_weeks_finite inp coef discounts Hinv Hsale Hdisc Hds n)
      as (st' & v & ls & ld & Hst' & Hv & Hv0 & Hls & Hld); [lia |].
    rewrite Hst in Hst'; injection Hst' as <-.
    assert (Hdpos : 0 < d).
    { rewrite Forall_forall in Hds; apply Hds; eapply nth_error_In; eauto. }
    destruct (week_finite inp coef st n d v ls ld Hv Hv0 Hls Hld Hdpos)
      as (p & Hp & _ & _ & _ & Hinv' & _).
    pose proof (Rmin_r p v).
    assert (0 <= Rmin p v) by (apply Rmin_glb; lra).
    apply (Hnumbers v (v - Rmin p v)); auto; lra.
Qed.

(** The run of the case inputs at the initial guess is such a run. *)
Lemma inventory_nonnegative_nonincreasing_witness :
  0 <= PartC.inv_start PartC.case_inputs
  /\ length PartC.initial_guess = 4%nat
  /\ (0 < 4)%nat
  /\ 0 < PartC.prev_sale PartC.case_inputs
  /\ 0 < PartC.prev_disc PartC.case_inputs
  /\ Forall (fun d => 0 < d) PartC.initial_guess
  /\ exists before after,
       PartC.after_weeks PartC.case_inputs fixture_coefficients
         PartC.initial_guess 0 = Some before
       /\ PartC.after_weeks PartC.case_inputs fixture_coefficients
            PartC.initial_guess 1 = Some after
       /\ (exists v v',
             PartC.current_inventory before = Fin v
             /\ PartC.current_inventory after = Fin v'
             /\ 0 <= v' <= v)
       /\ fge (PartC.current_inventory after) (Fin 0) = true
       /\ fge (PartC.current_inventory before) (PartC.current_inventory after) = true.
Proof.
  assert (H1 : 0 <= PartC.inv_start PartC.case_inputs) by (simpl; lra).
  assert (H2 : 0 < PartC.prev_sale PartC.case_inputs) by (simpl; lra).
  assert (H3 : 0 < PartC.prev_disc PartC.case_inputs) by (simpl; lra).
  assert (H4 : Forall (fun d => 0 < d) PartC.initial_guess)
    by (unfold PartC.initial_guess; repeat constructor; lra).
  assert (H5 : (0 < 4)%nat) by lia.
  repeat (split; [first [assumption | reflexivity] |]).
  destruct (inventory_nonnegative_nonincreasing PartC.case_inputs fixture_coefficients
              PartC.initial_guess H1 eq_refl 0%nat H5)
    as (before & after & d & Hb & _ & Ha & _ & Hpos).
  exists before, after.
  destruct (Hpos H2 H3 H4) as (Hnum & Hge0 & Hge).
  repeat split; assumption.
Defined.

(** C2, as stated, fails.  The case inputs, the scenario's coefficients
    and the discount vector [0, 0, 0.3, 0.4], every entry of which lies
    in [0, 1]: the second week predicts [nan], and after it the
    remaining inventory is [nan], which is not >= 0. *)
Lemma inventory_nonnegative_nonincreasing_counterexample :
  0 <= PartC.inv_start PartC.case_inputs
  /\ Forall (fun d => 0 <= d <= 1) zero_start_discounts
  /\ exists st,
       PartC.after_weeks PartC.case_inputs fixture_coefficients
         zero_start_discounts 2 = Some st
       /\ PartC.current_inventory st = NaN
       /\ fge (PartC.current_inventory st) (Fin 0) = false.
Proof.
  split; [simpl; lra |].
  split.
  { unfold zero_start_discounts.
    repeat (apply Forall_cons; [lra |]); apply Forall_nil. }
  exists (PartC.week PartC.case_inputs fixture_coefficients
            (PartC.week PartC.case_inputs fixture_coefficients
               (PartC.init PartC.case_inputs) 0 0) 1 0).
  split; [reflexivity |].
  assert (Hnan : PartC.current_inventory
                   (PartC.week PartC.case_inputs fixture_coefficients
                      (PartC.week PartC.case_inputs fixture_coefficients
                         (PartC.init PartC.case_inputs) 0 0) 1 0) = NaN).
  { apply week_nan_inventory.
    apply (second_zero_discount_nan PartC.case_inputs fixture_coefficients
             (PartC.init PartC.case_inputs) 0 1 2476 (ln 48) (ln 0.579)).
    - simpl; lra.
    - simpl; lra.
    - reflexivity.
    - lra.
    - apply np_log_pos; lra.
    - apply np_log_pos; lra. }
  split; [exact Hnan | rewrite Hnan; reflexivity].
Qed.

(* ================================================================== *)
(** * Saturation                                                       *)
(* ================================================================== *)

(** Once the inventory is [0] it stays [0]. *)
Lemma sold_out_stays (inp : PartC.inputs) (coef : PartB.params) (ds : list R) (i : nat) :
  0 <= PartC.inv_start inp ->
  0 < PartC.prev_sale inp ->
  0 < PartC.prev_disc inp ->
  Forall (fun d => 0 < d) ds ->
  (exists st, PartC.after_weeks inp coef ds i = Some st
              /\ PartC.current_inventory st = Fin 0) ->
  forall j, (i <= j <= length ds)%nat ->
    exists st, PartC.after_weeks inp coef ds j = Some st
               /\ PartC.current_inventory st = Fin 0.
Proof.
  intros Hinv Hsale Hdisc Hds Hi j.
  induction j as [| j IH]; intros Hj.
  - assert (i = 0)%nat by lia; subst i; exact Hi.
  - destruct (Nat.eq_dec i (S j)) as [-> | Hne]; [exact Hi |].
    destruct IH as (st & Hst & Hzero); [lia |].
    destruct (after_weeks_finite inp coef ds Hinv Hsale Hdisc Hds j)
      as (st' & v & ls & ld & Hst' & Hv & Hv0 & Hls & Hld); [lia |].
    rewrite Hst in Hst'; injection Hst' as <-.
    rewrite Hzero in Hv; injection Hv as <-.
    destruct (nth_error ds j) as [d |] eqn:Hd;
      [| apply nth_error_None in Hd; lia].
    assert (Hdpos : 0 < d).
    { rewrite Forall_forall in Hds; apply Hds; eapply nth_error_In; eauto. }
    destruct (week_finite inp coef st j d 0 ls ld Hzero (Rle_refl 0) Hls Hld Hdpos)
      as (p & Hp & _ & _ & _ & Hinv' & _).
    exists (PartC.week inp coef st j d).
    rewrite after_weeks_S, Hst, Hd; split; [reflexivity |].
    rewrite Hinv'; f_equal.
    rewrite Rmin_right by lra; lra.
Qed.

(** An inventory of [0] stays [0] through weeks that do not predict
    [nan]. *)
Lemma sold_out_stays_without_nan (inp : PartC.inputs) (coef : PartB.params)
  (ds : list R) (i : nat) :
  (exists st, PartC.after_weeks inp coef ds i = Some st
              /\ PartC.current_inventory st = Fin 0) ->
  forall j, (i <= j <= length ds)%nat ->
    (forall m st d, (i <= m < j)%nat ->
       PartC.after_weeks inp coef ds m = Some st ->
       nth_error ds m = Some d ->
       PartC.pred_log_sales inp coef st m d <> NaN) ->
    exists st, PartC.after_weeks inp coef ds j = Some st
               /\ PartC.current_inventory st = Fin 0.
Proof.
  intros Hi j.
  induction j as [| j IH]; intros Hj Hnonan.
  - assert (i = 0)%nat by lia; subst i; exact Hi.
  - destruct (Nat.eq_dec i (S j)) as [-> | Hne]; [exact Hi |].
    destruct IH as (st & Hst & Hzero); [lia | |].
    { intros m s d Hm; apply Hnonan; lia. }
    destruct (nth_error ds j) as [d |] eqn:Hd;
      [| apply nth_error_None in Hd; lia].
    destruct (week_without_nan inp coef st j d 0 Hzero) as (a & _ & Hinv' & Ha).
    { apply (Hnonan j st d); auto; lia. }
    exists (PartC.week inp coef st j d).
    rewrite after_weeks_S, Hst, Hd; split; [reflexivity |].
    rewrite Hinv'; f_equal.
    specialize (Ha (Rle_refl 0)); lra.
Qed.

(** C3 (as amended).  In a four-week run, if the predicted sales of week
    [i] exceed the remaining inventory, the actual sales of week [i] are
    exactly that inventory.  As long as no later week predicts [nan] log
    sales, the inventory then is 0 at the start of every later week and
    at the end of the horizon, and each later week sells 0.  No week
    predicts [nan] when the starting inventory is >= 0 and the lag seeds
    and every discount are strictly positive. *)
Theorem saturation_sells_out
  (inp : PartC.inputs) (coef : PartB.params) (discounts : list R)
  (i : nat) (st : PartC.state) (d : R) :
  length discounts = 4%nat ->
  PartC.after_weeks inp coef discounts i = Some st ->
  nth_error discounts i = Some d ->
  flt (PartC.current_inventory st) (PartC.predicted_sales inp coef st i d) = true ->
  PartC.actual_sales inp coef st i d = PartC.current_inventory st
  /\ (forall j, (i < j <= 4)%nat ->
        (forall m st_m d_m, (i < m < j)%nat ->
           PartC.after_weeks inp coef discounts m = Some st_m ->
           nth_error discounts m = Some d_m ->
           PartC.pred_log_sales inp coef st_m m d_m <> NaN) ->
        exists st_j,
          PartC.after_weeks inp coef discounts j = Some st_j
          /\ PartC.current_inventory st_j = Fin 0
          /\ forall d_j, nth_error discounts j = Some d_j ->
               PartC.pred_log_sales inp coef st_j j d_j <> NaN ->
               PartC.actual_sales inp coef st_j j d_j = Fin 0)
  /\ (0 <= PartC.inv_start inp ->
      0 < PartC.prev_sale inp ->
      0 < PartC.prev_disc inp ->
      Forall (fun d => 0 < d) discounts ->
      forall j, (i < j <= 4)%nat ->
        exists st_j,
          PartC.after_weeks inp coef discounts j = Some st_j
          /\ PartC.current_inventory st_j = Fin 0
          /\ forall d_j, nth_error discounts j = Some d_j ->
               PartC.actual_sales inp coef st_j j d_j = Fin 0).
Proof.
  intros Hlen Hst Hd Hexceeds.
  assert (Hi : (i < 4)%nat).
  { rewrite <- Hlen; apply nth_error_Some; congruence. }
  assert (Hact : PartC.actual_sales inp coef st i d = PartC.current_inventory st).
  { unfold PartC.actual_sales, py_min; rewrite Hexceeds; reflexivity. }
  assert (Hsold : exists s, PartC.after_weeks inp coef discounts (S i) = Some s
                            /\ PartC.current_inventory s = Fin 0).
  { exists (PartC.week inp coef st i d).
    rewrite after_weeks_S, Hst, Hd; split; [reflexivity |].
    cbn [PartC.week PartC.current_inventory]; rewrite Hact.
    destruct (after_weeks_inventory_shape inp coef discounts i st Hst)
      as [[v Hv] | Hnan].
    - rewrite Hv; cbn; f_equal; lra.
    - rewrite Hnan in Hexceeds; discriminate. }
  split; [exact Hact |].
  split.
  - intros j Hj Hnonan.
    destruct (sold_out_stays_without_nan inp coef discounts (S i) Hsold j)
      as (st_j & Hst_j & Hzero); [lia | |].
    { intros m s d' Hm; apply Hnonan; lia. }
    exists st_j; split; [exact Hst_j |]. split; [exact Hzero |].
    intros d_j Hd_j Hnonan_j.
    destruct (week_without_nan inp coef st_j j d_j 0 Hzero Hnonan_j)
      as (a & Ha_eq & _ & Ha).
    rewrite Ha_eq; f_equal; specialize (Ha (Rle_refl 0)); lra.
  - intros Hinv Hsale Hdisc Hds j Hj.
    destruct (sold_out_stays inp coef discounts (S i) Hinv Hsale Hdisc Hds Hsold j)
      as (st_j & Hst_j & Hzero); [lia |].
    exists st_j; repeat split; try assumption.
    intros d_j Hd_j.
    destruct (after_weeks_finite inp coef discounts Hinv Hsale Hdisc Hds j)
      as (s & w & ls' & ld' & Hs & Hw & Hw0 & Hls' & Hld'); [lia |].
    rewrite Hst_j in Hs; injection Hs as <-.
    assert (Hd_j_pos : 0 < d_j).
    { rewrite Forall_forall in Hds; apply Hds; eapply nth_error_In; eauto. }
    destruct (week_finite inp coef st_j j d_j 0 ls' ld' Hzero (Rle_refl 0)
                Hls' Hld' Hd_j_pos) as (q & Hq & _ & _ & Hact_j & _).
    rewrite Hact_j; f_equal; apply Rmin_right; lra.
Qed.

(** Bounds on the three logarithms of the first week. *)
Lemma ln_48_above_3 : 3 < ln 48.
Proof.
  rewrite <- (ln_exp 3) at 1.
  apply ln_increasing; [apply exp_pos |].
  replace 3 with (1 + (1 + 1)) by lra.
  rewrite !exp_plus.
  pose proof exp_le_3; pose proof (exp_pos 1); nra.
Qed.

Lemma ln_06_above : - (2 / 3) < ln 0.6.
Proof.
  rewrite <- (ln_exp (- (2 / 3))) at 1.
  apply ln_increasing; [apply exp_pos |].
  rewrite exp_Ropp.
  pose proof (exp_ineq1 (2 / 3) ltac:(lra)).
  replace 0.6 with (/ (5 / 3)) by lra.
  apply Rinv_lt_contravar; [| lra].
  apply Rmult_lt_0_compat; [lra | apply exp_pos].
Qed.

Lemma ln_0579_negative : ln 0.579 < 0.
Proof. rewrite <- ln_1; apply ln_increasing; lra. Qed.

(** With one unit in stock, the first week at a discount of 0.6
    predicts more than one unit. *)
Lemma first_week_exceeds_one_unit :
  exists p,
    PartC.predicted_sales one_unit_inputs fixture_coefficients
      (PartC.init one_unit_inputs) 0 0.6 = Fin p
    /\ 1 < p.
Proof.
  unfold PartC.predicted_sales, PartC.pred_log_sales.
  cbn [PartC.init PartC.log_lag_sales PartC.log_lag_discount one_unit_inputs
       PartC.prev_sale PartC.prev_disc].
  rewrite (np_log_pos 48), (np_log_pos 0.579), (np_log_pos 0.6) by lra.
  cbn [fmul fadd np_exp fixture_coefficients PartB.const PartB.coef_log_lag_sales
       PartB.coef_log_disc PartB.coef_log_lag_disc PartB.coef_promo_flag
       PartB.coef_age PartC.is_promo_week PartC.age_current_week PartC.age_start].
  eexists; split; [reflexivity |].
  pose proof ln_48_above_3; pose proof ln_06_above; pose proof ln_0579_negative.
  change (PartC.age_current_week one_unit_inputs 0) with 97%Z.
  unfold PartC.is_promo_week.
  match goal with
  | |- 1 < exp ?t =>
      assert (Ht : 0 < t) by lra;
      pose proof (exp_ineq1 t ltac:(lra)); lra
  end.
Qed.

(** One unit in stock and a discount of 0.6 every week: the first week
    predicts more than the unit. *)
Lemma saturation_sells_out_witness :
  let st := PartC.init one_unit_inputs in
  length flat_discounts = 4%nat
  /\ PartC.after_weeks one_unit_inputs fixture_coefficients flat_discounts 0 = Some st
  /\ nth_error flat_discounts 0 = Some 0.6
  /\ flt (PartC.current_inventory st)
         (PartC.predicted_sales one_unit_inputs fixture_coefficients st 0 0.6) = true
  /\ 0 <= PartC.inv_start one_unit_inputs
  /\ 0 < PartC.prev_sale one_unit_inputs
  /\ 0 < PartC.prev_disc one_unit_inputs
  /\ Forall (fun d => 0 < d) flat_discounts
  /\ PartC.actual_sales one_unit_inputs fixture_coefficients st 0 0.6 = Fin 1
  /\ forall j, (0 < j <= 4)%nat ->
       exists st_j,
         PartC.after_weeks one_unit_inputs fixture_coefficients flat_discounts j
           = Some st_j
         /\ PartC.current_inventory st_j = Fin 0
         /\ forall d_j, nth_error flat_discounts j = Some d_j ->
              PartC.actual_sales one_unit_inputs fixture_coefficients st_j j d_j = Fin 0.
Proof.
  intros st.
  assert (H1 : 0 <= PartC.inv_start one_unit_inputs) by (simpl; lra).
  assert (H2 : 0 < PartC.prev_sale one_unit_inputs) by (simpl; lra).
  assert (H3 : 0 < PartC.prev_disc one_unit_inputs) by (simpl; lra).
  assert (H4 : Forall (fun d => 0 < d) flat_discounts)
    by (unfold flat_discounts; repeat constructor; lra).
  assert (H5 : flt (PartC.current_inventory st)
                 (PartC.predicted_sales one_unit_inputs fixture_coefficients st 0 0.6)
               = true).
  { destruct first_week_exceeds_one_unit as (p & Hp & Hlt).
    subst st; rewrite Hp; cbn.
    destruct (Rlt_dec 1 p); [reflexivity | contradiction]. }
  destruct (saturation_sells_out one_unit_inputs fixture_coefficients
              flat_discounts 0 st 0.6 eq_refl eq_refl eq_refl H5)
    as (Hact & _ & Hlater).
  split; [reflexivity |]. split; [reflexivity |]. split; [reflexivity |].
  split; [exact H5 |].
  split; [exact H1 |]. split; [exact H2 |]. split; [exact H3 |].
  split; [exact H4 |].
  split; [exact Hact |].
  exact (Hlater H1 H2 H3 H4).
Defined.

(** C3, as stated, fails.  One unit in stock, the scenario's
    coefficients and the discount vector [0.6, 0, 0, 0.6]: the first
    week predicts more than the unit and sells it, the inventory is 0;
    the third week, the second one without discount, predicts [nan], and
    after it the remaining inventory is [nan], not 0. *)
Lemma saturation_sells_out_counterexample :
  let st1 := PartC.week one_unit_inputs fixture_coefficients
               (PartC.init one_unit_inputs) 0 0.6 in
  let st2 := PartC.week one_unit_inputs fixture_coefficients st1 1 0 in
  let st3 := PartC.week one_unit_inputs fixture_coefficients st2 2 0 in
  Forall (fun d => 0 <= d <= 1) saturating_discounts
  /\ flt (PartC.current_inventory (PartC.init one_unit_inputs))
         (PartC.predicted_sales one_unit_inputs fixture_coefficients
            (PartC.init one_unit_inputs) 0 0.6) = true
  /\ PartC.after_weeks one_unit_inputs fixture_coefficients saturating_discounts 1
     = Some st1
  /\ PartC.current_inventory st1 = Fin 0
  /\ PartC.after_weeks one_unit_inputs fixture_coefficients saturating_discounts 3
     = Some st3
  /\ PartC.current_inventory st3 = NaN.
Proof.
  intros st1 st2 st3.
  destruct first_week_exceeds_one_unit as (p & Hp & Hlt).
  destruct (week_finite one_unit_inputs fixture_coefficients
              (PartC.init one_unit_inputs) 0 0.6 1 (ln 48) (ln 0.579))
    as (q & Hq & _ & Hpred & _ & Hinv1 & Hls1 & Hld1).
  { reflexivity. }
  { lra. }
  { apply np_log_pos; lra. }
  { apply np_log_pos; lra. }
  { lra. }
  assert (q = p) by (rewrite Hp in Hpred; injection Hpred; auto); subst q.
  fold st1 in Hinv1, Hls1, Hld1.
  rewrite Rmin_right in Hinv1 by lra.
  split.
  { unfold saturating_discounts.
    repeat (apply Forall_cons; [lra |]); apply Forall_nil. }
  split.
  { rewrite Hp; cbn.
    destruct (Rlt_dec 1 p); [reflexivity | contradiction]. }
  split; [reflexivity |].
  split; [rewrite Hinv1; f_equal; lra |].
  split; [reflexivity |].
  apply week_nan_inventory.
  apply (second_zero_discount_nan one_unit_inputs fixture_coefficients st1 1 2
           (1 - 1) (ln (Rmin p 1 + epsilon)) (ln 0.6)).
  - simpl; lra.
  - simpl; lra.
  - exact Hinv1.
  - lra.
  - exact Hls1.
  - exact Hld1.
Qed.

(* ================================================================== *)
(** * Logarithms in the simulator                                      *)
(* ================================================================== *)

(** With finite lags and a positive discount the predicted log sales are
    finite, whatever the inventory. *)
Lemma pred_log_sales_finite (inp : PartC.inputs) (coef : PartB.params)
  (st : PartC.state) (n : nat) (d ls ld : R) :
  PartC.log_lag_sales st = Fin ls ->
  PartC.log_lag_discount st = Fin ld ->
  0 < d ->
  exists t, PartC.pred_log_sales inp coef st n d = Fin t.
Proof.
  intros Hls Hld Hd; unfold PartC.pred_log_sales.
  rewrite Hls, Hld, (np_log_pos d Hd); cbn [fmul fadd]; eauto.
Qed.

(** A lag of [-inf] makes the predicted log sales not finite. *)
Lemma pred_log_sales_lag_sales_ninf (inp : PartC.inputs) (coef : PartB.params)
  (st : PartC.state) (n : nat) (d : R) :
  PartC.log_lag_sales st = NInf ->
  ~ is_finite (PartC.pred_log_sales inp coef st n d).
Proof.
  intros H; unfold PartC.pred_log_sales; rewrite H.
  do 4 apply fadd_not_finite_l.
  apply fadd_not_finite_r, fmul_ninf_not_finite.
Qed.

Lemma pred_log_sales_lag_discount_ninf (inp : PartC.inputs) (coef : PartB.params)
  (st : PartC.state) (n : nat) (d : R) :
  PartC.log_lag_discount st = NInf ->
  ~ is_finite (PartC.pred_log_sales inp coef st n d).
Proof.
  intros H; unfold PartC.pred_log_sales; rewrite H.
  do 2 apply fadd_not_finite_l.
  apply fadd_not_finite_r, fmul_ninf_not_finite.
Qed.

Lemma pred_log_sales_discount_zero (inp : PartC.inputs) (coef : PartB.params)
  (st : PartC.state) (n : nat) :
  ~ is_finite (PartC.pred_log_sales inp coef st n 0).
Proof.
  unfold PartC.pred_log_sales; rewrite np_log_zero.
  do 3 apply fadd_not_finite_l.
  apply fadd_not_finite_r, fmul_ninf_not_finite.
Qed.

(** C10 (as amended).  The simulator takes [np.log] of the previous
    week's sales, of the previous week's discount and of each week's
    discount without adding epsilon, where the Feature Builder takes
    [np.log(value + epsilon)].  When the previous sales, the
    previous discount or a week's discount is 0, that logarithm is -inf
    and the predicted log sales of the week are not a finite number
    (-inf, +inf or nan, depending on the coefficients).  When the
    starting inventory is >= 0, the two seeds are positive and every
    discount of the four-week vector is positive, every logarithm of the
    run is finite: the seeds, each week's [log(discount)], each week's
    [log(actual_sales + epsilon)], and the predicted log sales. *)
Theorem simulator_logarithms
  (inp : PartC.inputs) (coef : PartB.params) (discounts : list R) :
  (PartC.log_lag_sales (PartC.init inp) = np_log (Fin (PartC.prev_sale inp))
   /\ PartC.log_lag_discount (PartC.init inp) = np_log (Fin (PartC.prev_disc inp))
   /\ (forall st n d,
         PartC.log_lag_discount (PartC.week inp coef st n d) = np_log (Fin d))
   /\ np_log (Fin 0) = NInf
   /\ PartB.log_eps [Fin 0] = [Fin (ln epsilon)])
  /\ (PartC.prev_sale inp = 0 ->
      PartC.log_lag_sales (PartC.init inp) = NInf
      /\ forall d, ~ is_finite (PartC.pred_log_sales inp coef (PartC.init inp) 0 d))
  /\ (PartC.prev_disc inp = 0 ->
      PartC.log_lag_discount (PartC.init inp) = NInf
      /\ forall d, ~ is_finite (PartC.pred_log_sales inp coef (PartC.init inp) 0 d))
  /\ (forall n st, nth_error discounts n = Some 0 ->
      PartC.log_lag_discount (PartC.week inp coef st n 0) = NInf
      /\ ~ is_finite (PartC.pred_log_sales inp coef st n 0))
  /\ (0 <= PartC.inv_start inp ->
      0 < PartC.prev_sale inp ->
      0 < PartC.prev_disc inp ->
      length discounts = 4%nat ->
      Forall (fun d => 0 < d) discounts ->
      forall n, (n < 4)%nat ->
        exists st d,
          PartC.after_weeks inp coef discounts n = Some st
          /\ nth_error discounts n = Some d
          /\ is_finite (PartC.log_lag_sales st)
          /\ is_finite (PartC.log_lag_discount st)
          /\ is_finite (np_log (Fin d))
          /\ is_finite (PartC.pred_log_sales inp coef st n d)
          /\ is_finite (PartC.log_lag_sales (PartC.week inp coef st n d))
          /\ is_finite (PartC.log_lag_discount (PartC.week inp coef st n d))).
Proof.
  split.
  { repeat split; try reflexivity; [apply np_log_zero |].
    cbn [PartB.log_eps map]; rewrite log_eps_nonneg, Rplus_0_l by lra.
    reflexivity. }
  split; [| split; [| split]].
  - intros Hzero.
    assert (H : PartC.log_lag_sales (PartC.init inp) = NInf).
    { cbn [PartC.init PartC.log_lag_sales]; rewrite Hzero; apply np_log_zero. }
    split; [exact H |].
    intros d; apply pred_log_sales_lag_sales_ninf; exact H.
  - intros Hzero.
    assert (H : PartC.log_lag_discount (PartC.init inp) = NInf).
    { cbn [PartC.init PartC.log_lag_discount]; rewrite Hzero; apply np_log_zero. }
    split; [exact H |].
    intros d; apply pred_log_sales_lag_discount_ninf; exact H.
  - intros n st _; split.
    + cbn [PartC.week PartC.log_lag_discount]; apply np_log_zero.
    + apply pred_log_sales_discount_zero.
  - intros Hinv Hsale Hdisc Hlen Hds n Hn.
    destruct (after_weeks_finite inp coef discounts Hinv Hsale Hdisc Hds n)
      as (st & v & ls & ld & Hst & Hv & Hv0 & Hls & Hld); [lia |].
    destruct (nth_error discounts n) as [d |] eqn:Hd;
      [| apply nth_error_None in Hd; lia].
    assert (Hdpos : 0 < d).
    { rewrite Forall_forall in Hds; apply Hds; eapply nth_error_In; eauto. }
    destruct (week_finite inp coef st n d v ls ld Hv Hv0 Hls Hld Hdpos)
      as (p & Hp & Hlog & _ & _ & _ & Hls' & Hld').
    exists st, d.
    rewrite Hls, Hld, Hlog, Hls', Hld', (np_log_pos d Hdpos).
    repeat split; assumption.
Qed.

(** The finite case at the case inputs and the initial guess, and the
    three zero cases at sold-out seeds. *)
Lemma simulator_logarithms_witness :
  (PartC.prev_disc zero_discount_inputs = 0
   /\ PartC.log_lag_discount (PartC.init zero_discount_inputs) = NInf
   /\ forall d, ~ is_finite (PartC.pred_log_sales zero_discount_inputs
                               fixture_coefficients
                               (PartC.init zero_discount_inputs) 0 d))
  /\ (0 <= PartC.inv_start PartC.case_inputs
      /\ 0 < PartC.prev_sale PartC.case_inputs
      /\ 0 < PartC.prev_disc PartC.case_inputs
      /\ length PartC.initial_guess = 4%nat
      /\ Forall (fun d => 0 < d) PartC.initial_guess
      /\ exists st d,
           PartC.after_weeks PartC.case_inputs fixture_coefficients
             PartC.initial_guess 0 = Some st
           /\ nth_error PartC.initial_guess 0 = Some d
           /\ is_finite (PartC.log_lag_sales st)
           /\ is_finite (PartC.log_lag_discount st)
           /\ is_finite (np_log (Fin d))
           /\ is_finite (PartC.pred_log_sales PartC.case_inputs
                           fixture_coefficients st 0 d)
           /\ is_finite (PartC.log_lag_sales
                           (PartC.week PartC.case_inputs fixture_coefficients st 0 d))
           /\ is_finite (PartC.log_lag_discount
                           (PartC.week PartC.case_inputs fixture_coefficients st 0 d))).
Proof.
  assert (H1 : 0 <= PartC.inv_start PartC.case_inputs) by (simpl; lra).
  assert (H2 : 0 < PartC.prev_sale PartC.case_inputs) by (simpl; lra).
  assert (H3 : 0 < PartC.prev_disc PartC.case_inputs) by (simpl; lra).
  assert (H4 : Forall (fun d => 0 < d) PartC.initial_guess)
    by (unfold PartC.initial_guess; repeat constructor; lra).
  split.
  - split; [reflexivity |].
    exact (proj1 (proj2 (proj2 (simulator_logarithms zero_discount_inputs
                                  fixture_coefficients PartC.initial_guess)))
             eq_refl).
  - split; [exact H1 |]. split; [exact H2 |]. split; [exact H3 |].
    split; [reflexivity |]. split; [exact H4 |].
    apply (proj2 (proj2 (proj2 (proj2 (simulator_logarithms PartC.case_inputs
                                         fixture_coefficients PartC.initial_guess))))
             H1 H2 H3 eq_refl H4 0%nat).
    lia.
Defined.

(** C10, as stated, fails.  With the scenario's coefficients and a
    previous discount of 0 the first week's predicted log sales are
    +inf, not -inf, because the coefficient of the lagged discount is
    negative.  And with a negative starting inventory the three
    positivity conditions hold but [log(actual_sales + epsilon)] of the
    first week is nan. *)
Lemma simulator_logarithms_counterexample :
  (PartC.prev_disc zero_discount_inputs = 0
   /\ PartC.pred_log_sales zero_discount_inputs fixture_coefficients
        (PartC.init zero_discount_inputs) 0 0.1 = PInf)
  /\ (0 < PartC.prev_sale negative_stock_inputs
      /\ 0 < PartC.prev_disc negative_stock_inputs
      /\ Forall (fun d => 0 < d) PartC.initial_guess
      /\ PartC.after_weeks negative_stock_inputs fixture_coefficients
           PartC.initial_guess 1
         = Some (PartC.week negative_stock_inputs fixture_coefficients
                   (PartC.init negative_stock_inputs) 0 0.1)
      /\ PartC.log_lag_sales
           (PartC.week negative_stock_inputs fixture_coefficients
              (PartC.init negative_stock_inputs) 0 0.1) = NaN).
Proof.
  split; [split; [reflexivity |] | ].
  - unfold PartC.pred_log_sales.
    cbn [PartC.init PartC.log_lag_sales PartC.log_lag_discount
         zero_discount_inputs PartC.prev_sale PartC.prev_disc].
    rewrite np_log_zero, (np_log_pos 48), (np_log_pos 0.1) by lra.
    cbn [fmul fadd fixture_coefficients PartB.coef_log_lag_disc].
    rewrite scaled_inf_pos by lra; reflexivity.
  - split; [simpl; lra |]. split; [simpl; lra |].
    split; [unfold PartC.initial_guess; repeat constructor; lra |].
    split; [reflexivity |].
    destruct (pred_log_sales_finite negative_stock_inputs fixture_coefficients
                (PartC.init negative_stock_inputs) 0 0.1 (ln 48) (ln 0.579))
      as [t Ht].
    + apply np_log_pos; lra.
    + apply np_log_pos; lra.
    + lra.
    + cbn [PartC.week PartC.log_lag_sales].
      unfold PartC.actual_sales, PartC.predicted_sales.
      rewrite Ht; cbn [np_exp PartC.init PartC.current_inventory
                       negative_stock_inputs PartC.inv_start].
      rewrite py_min_fin, Rmin_right by (pose proof (exp_pos t); lra).
      cbn [fadd]; apply np_log_neg; unfold epsilon; lra.
Qed.

(* ================================================================== *)
(** * Sorting the series                                               *)
(* ================================================================== *)

Lemma key_le_total (a b : PartB.row) :
  PartB.key_le a b = false -> PartB.key_le b a = true.
Proof.
  unfold PartB.key_le; intros H.
  apply orb_false_iff in H; destruct H as [Hlt Hrest].
  apply Z.ltb_ge in Hlt.
  destruct (Z.eqb_spec (PartB.year_no a) (PartB.year_no b)) as [Heq | Hne].
  - cbn in Hrest; apply Z.leb_gt in Hrest.
    apply orb_true_iff; right; apply andb_true_iff; split.
    + apply Z.eqb_eq; congruence.
    + apply Z.leb_le; lia.
  - apply orb_true_iff; left; apply Z.ltb_lt; lia.
Qed.

Lemma insert_permutation (r : PartB.row) (l : list PartB.row) :
  Permutation (r :: l) (PartB.insert r l).
Proof.
  induction l as [| b l IH]; cbn; [reflexivity |].
  destruct (PartB.key_le r b); [reflexivity |].
  rewrite perm_swap; apply perm_skip, IH.
Qed.

(** Sorting keeps every line, duplicates included. *)
Lemma sort_values_permutation (df : list PartB.row) :
  Permutation df (PartB.sort_values df).
Proof.
  induction df as [| r df IH]; cbn; [constructor |].
  rewrite <- insert_permutation; apply perm_skip, IH.
Qed.

Lemma insert_time_ordered (r : PartB.row) (l : list PartB.row) :
  PartB.time_ordered l -> PartB.time_ordered (PartB.insert r l).
Proof.
  unfold PartB.time_ordered.
  induction l as [| b l IH]; intros Hs; cbn.
  - repeat constructor.
  - destruct (PartB.key_le r b) eqn:Hrb.
    + constructor; [exact Hs | constructor; exact Hrb].
    + inversion Hs as [| ? ? Hl Hhd]; subst.
      constructor; [apply IH; exact Hl |].
      destruct l as [| c l]; cbn.
      * constructor; apply key_le_total; exact Hrb.
      * inversion Hhd; subst.
        destruct (PartB.key_le r c); constructor;
          [apply key_le_total; exact Hrb | assumption].
Qed.

Lemma sort_values_time_ordered (df : list PartB.row) :
  PartB.time_ordered (PartB.sort_values df).
Proof.
  induction df as [| r df IH]; cbn.
  - constructor.
  - apply insert_time_ordered, IH.
Qed.

(** A series that is already in time order is left as it is. *)
Lemma sort_values_of_time_ordered (df : list PartB.row) :
  PartB.time_ordered df -> PartB.sort_values df = df.
Proof.
  unfold PartB.time_ordered.
  induction 1 as [| r l Hl IH Hhd]; cbn; [reflexivity |].
  fold (PartB.sort_values l); rewrite IH.
  destruct Hhd as [| b l' Hrb]; cbn; [reflexivity |].
  rewrite Hrb; reflexivity.
Qed.

Lemma sort_values_idempotent (df : list PartB.row) :
  PartB.sort_values (PartB.sort_values df) = PartB.sort_values df.
Proof. apply sort_values_of_time_ordered, sort_values_time_ordered. Qed.

(* ================================================================== *)
(** * The feature columns                                              *)
(* ================================================================== *)

Lemma assign_rows_from (df : list PartB.row) :
  forall ps pd,
    PartB.assign df
      (PartB.log_eps (PartB.sales_column df))
      (PartB.log_eps (firstn (length df) (ps :: PartB.sales_column df)))
      (PartB.log_eps (PartB.discount_column df))
      (PartB.log_eps (firstn (length df) (pd :: PartB.discount_column df)))
    = PartB.rows_from ps pd df.
Proof.
  induction df as [| r df IH]; intros ps pd; [reflexivity |].
  cbn [length PartB.sales_column PartB.discount_column map firstn
       PartB.log_eps PartB.assign PartB.rows_from].
  f_equal; apply IH.
Qed.

(** The frame with its log columns, line by line: the first line has no
    line before it. *)
Lemma add_features_rows_from (df : list PartB.row) :
  PartB.add_features df = PartB.rows_from NaN NaN df.
Proof.
  unfold PartB.add_features, PartB.shift, PartB.sales_column,
    PartB.discount_column.
  rewrite !length_map; apply assign_rows_from.
Qed.

Lemma rows_from_length (df : list PartB.row) :
  forall ps pd, length (PartB.rows_from ps pd df) = length df.
Proof. induction df; intros; cbn; auto. Qed.

(** After a well-formed line nothing is dropped. *)
Lemma dropna_rows_from (df : list PartB.row) :
  forall s d, 0 <= s -> 0 <= d -> Forall PartB.well_formed df ->
    PartB.dropna (PartB.rows_from (Fin s) (Fin d) df)
    = PartB.rows_from (Fin s) (Fin d) df.
Proof.
  induction df as [| r df IH]; intros s d Hs Hd Hwf; [reflexivity |].
  inversion Hwf as [| ? ? [Hrs Hrd] Hrest]; subst.
  cbn [PartB.rows_from PartB.dropna filter PartB.log_lag_sales PartB.log_lag_disc].
  rewrite (log_eps_nonneg s Hs), (log_eps_nonneg d Hd); cbn [isna negb andb].
  f_equal; apply IH; assumption.
Qed.

(** The first line, and only the first line, is dropped. *)
Lemma dropna_add_features (df : list PartB.row) :
  Forall PartB.well_formed df ->
  PartB.dropna (PartB.add_features df) = tl (PartB.add_features df).
Proof.
  intros Hwf; rewrite add_features_rows_from.
  destruct df as [| r df]; [reflexivity |].
  inversion Hwf as [| ? ? [Hrs Hrd] Hrest]; subst.
  cbn [PartB.rows_from PartB.dropna filter PartB.log_lag_sales PartB.log_lag_disc
       fadd np_log isna negb andb tl].
  apply dropna_rows_from; assumption.
Qed.

(** In the frame, the lag columns of a line are the log columns of the
    line before. *)
Lemma rows_from_lag (df : list PartB.row) :
  forall ps pd i a b,
    nth_error (PartB.rows_from ps pd df) i = Some a ->
    nth_error (PartB.rows_from ps pd df) (S i) = Some b ->
    PartB.log_lag_sales b = PartB.log_sales a
    /\ PartB.log_lag_disc b = PartB.log_disc a.
Proof.
  induction df as [| r df IH]; intros ps pd i a b Ha Hb.
  - destruct i; discriminate.
  - destruct i as [| i].
    + cbn in Ha; injection Ha as <-.
      destruct df as [| r' df]; [discriminate |].
      cbn in Hb; injection Hb as <-; split; reflexivity.
    + cbn [PartB.rows_from nth_error] in Ha, Hb.
      eapply IH; eauto.
Qed.

Lemma filter_commute {A : Type} (f g : A -> bool) (l : list A) :
  filter f (filter g l) = filter g (filter f l).
Proof.
  induction l as [| a l IH]; [reflexivity |]; cbn.
  destruct (g a) eqn:Hg, (f a) eqn:Hf; cbn; rewrite ?Hg, ?Hf, IH; reflexivity.
Qed.

(** The training window and the dropping of lines commute. *)
Lemma train_data_filter (df_ts : list PartB.row) :
  PartB.train_data df_ts
  = filter PartB.train_mask
      (PartB.dropna (PartB.add_features (PartB.sort_values df_ts))).
Proof. unfold PartB.train_data, PartB.dropna; apply filter_commute. Qed.

Lemma rows_from_base (df : list PartB.row) :
  forall ps pd, map PartB.base (PartB.rows_from ps pd df) = df.
Proof.
  induction df as [| r df IH]; intros ps pd; [reflexivity |].
  cbn; f_equal; apply IH.
Qed.

(** A series of at most one line leaves no feature row. *)
Lemma short_series_no_features (df_ts : list PartB.row) :
  (length df_ts < 2)%nat ->
  PartB.dropna (PartB.add_features (PartB.sort_values df_ts)) = [].
Proof.
  intros Hlen.
  destruct df_ts as [| r [| r' df]]; [reflexivity | | cbn in Hlen; lia].
  cbn [PartB.sort_values fold_right PartB.insert].
  rewrite add_features_rows_from; reflexivity.
Qed.

Lemma filter_all {A : Type} (f : A -> bool) (l : list A) :
  (forall x, In x l -> f x = true) -> filter f l = l.
Proof.
  induction l as [| a l IH]; intros Hall; [reflexivity |].
  cbn; rewrite (Hall a) by (left; reflexivity).
  f_equal; apply IH; intros x Hx; apply Hall; right; exact Hx.
Qed.

(** C6 (as amended).  The Feature Builder (the log columns of the sorted
    frame and the dropping of the lines whose lag is missing), on a
    series that is in time order and whose sales and discounts are not
    negative: a series of L >= 2 lines yields exactly L - 1 feature rows,
    namely every line but the first one, which is dropped and not filled
    in; feature row i belongs to observation i + 1 and its lagged log
    sales (and lagged log discount) are the log sales (log discount) of
    observation i.  The training set of the script is these rows cut to
    the training window; it has the L - 1 rows when every line after the
    first lies in the window.  A series of fewer than 2 lines yields no
    row, and no error. *)
Theorem feature_rows_of_ordered_series (df_ts : list PartB.row) :
  let frame := PartB.add_features (PartB.sort_values df_ts) in
  let features := PartB.dropna frame in
  ((length df_ts < 2)%nat -> features = [] /\ PartB.train_data df_ts = [])
  /\ PartB.train_data df_ts = filter PartB.train_mask features
  /\ (PartB.time_ordered df_ts ->
      Forall PartB.well_formed df_ts ->
      (2 <= length df_ts)%nat ->
      map PartB.base frame = df_ts
      /\ features = tl frame
      /\ length features = (length df_ts - 1)%nat
      /\ (forall i a b,
            nth_error frame i = Some a ->
            nth_error features i = Some b ->
            PartB.log_lag_sales b = PartB.log_sales a
            /\ PartB.log_lag_disc b = PartB.log_disc a)
      /\ ((forall r, In r (tl frame) -> PartB.train_mask r = true) ->
          PartB.train_data df_ts = tl frame
          /\ length (PartB.train_data df_ts) = (length df_ts - 1)%nat)).
Proof.
  intros frame features.
  split; [| split].
  - intros Hlen.
    assert (H : features = []) by (apply short_series_no_features; exact Hlen).
    split; [exact H |].
    rewrite train_data_filter; fold frame; fold features; rewrite H; reflexivity.
  - apply train_data_filter.
  - intros Hord Hwf Hlen.
    assert (Hfeat : features = tl frame).
    { subst features frame.
      rewrite (sort_values_of_time_ordered df_ts Hord).
      apply dropna_add_features; exact Hwf. }
    assert (Hcount : length (tl frame) = (length df_ts - 1)%nat).
    { subst frame.
      rewrite (sort_values_of_time_ordered df_ts Hord), add_features_rows_from.
      destruct df_ts as [| r df]; [cbn in Hlen; lia |].
      cbn [PartB.rows_from tl length]; rewrite rows_from_length; lia. }
    split.
    { subst frame.
      rewrite (sort_values_of_time_ordered df_ts Hord), add_features_rows_from.
      apply rows_from_base. }
    split; [exact Hfeat |].
    split; [rewrite Hfeat; exact Hcount |].
    split.
    + intros i a b Ha Hb.
      rewrite Hfeat in Hb; subst frame.
      rewrite add_features_rows_from in Ha, Hb.
      apply (rows_from_lag (PartB.sort_values df_ts) NaN NaN i a b Ha).
      destruct (PartB.rows_from NaN NaN (PartB.sort_values df_ts));
        [destruct i; discriminate |].
      exact Hb.
    + intros Hwindow.
      assert (Htrain : PartB.train_data df_ts = tl frame).
      { rewrite train_data_filter; fold frame; fold features.
        rewrite Hfeat; apply filter_all; exact Hwindow. }
      split; [exact Htrain | rewrite Htrain; exact Hcount].
Qed.

(** Three weeks in order, all inside the training window, give two
    feature rows and two training rows. *)
Lemma feature_rows_of_ordered_series_witness :
  let df_ts := [week_1; week_2; week_3] in
  let frame := PartB.add_features (PartB.sort_values df_ts) in
  let features := PartB.dropna frame in
  PartB.time_ordered df_ts
  /\ Forall PartB.well_formed df_ts
  /\ (2 <= length df_ts)%nat
  /\ (forall r, In r (tl frame) -> PartB.train_mask r = true)
  /\ map PartB.base frame = df_ts
  /\ features = tl frame
  /\ length features = 2%nat
  /\ (forall i a b,
        nth_error frame i = Some a ->
        nth_error features i = Some b ->
        PartB.log_lag_sales b = PartB.log_sales a
        /\ PartB.log_lag_disc b = PartB.log_disc a)
  /\ PartB.train_data df_ts = tl frame
  /\ length (PartB.train_data df_ts) = 2%nat.
Proof.
  intros df_ts frame features.
  assert (H1 : PartB.time_ordered df_ts)
    by (repeat constructor).
  assert (H2 : Forall PartB.well_formed df_ts)
    by (repeat constructor; simpl; lra).
  assert (H3 : (2 <= length df_ts)%nat) by (simpl; lia).
  assert (H4 : forall r, In r (tl frame) -> PartB.train_mask r = true).
  { intros r [<- | [<- | []]]; reflexivity. }
  destruct (proj2 (proj2 (feature_rows_of_ordered_series df_ts)) H1 H2 H3)
    as (Hbase & Hfeat & Hlen & Hlag & Htrain).
  destruct (Htrain H4) as [Ht Htl].
  split; [exact H1 |]. split; [exact H2 |]. split; [exact H3 |].
  split; [exact H4 |]. split; [exact Hbase |]. split; [exact Hfeat |].
  split; [exact Hlen |]. split; [exact Hlag |]. split; [exact Ht | exact Htl].
Defined.

(** The training rows of three lines in order, the middle one with
    negative sales, all in the training window: the middle line
    alone. *)
Lemma train_data_after_returns :
  PartB.train_data [week_1; returns_week; week_3] = [returns_row]
  /\ PartB.dropna (PartB.add_features (PartB.sort_values [week_1; returns_week; week_3]))
     = [returns_row].
Proof.
  assert (Hord : PartB.time_ordered [week_1; returns_week; week_3])
    by (repeat constructor).
  assert (Hdrop : PartB.dropna
                    (PartB.add_features
                       (PartB.sort_values [week_1; returns_week; week_3]))
                  = [returns_row]).
  { rewrite (sort_values_of_time_ordered _ Hord), add_features_rows_from.
    cbn [PartB.rows_from].
    cbn [fadd week_1 returns_week week_3 PartB.sales_units PartB.discount_per].
    rewrite (np_log_pos (10 + epsilon)), (np_log_pos (0.1 + epsilon)),
      (np_log_pos (0.2 + epsilon)), (np_log_neg (-5 + epsilon))
      by (unfold epsilon; lra).
    cbn [PartB.dropna filter PartB.log_lag_sales PartB.log_lag_disc
         fadd np_log isna negb andb].
    unfold returns_row.
    cbn [fadd week_1 returns_week PartB.sales_units PartB.discount_per
         PartB.promo_week_flg].
    rewrite (np_log_pos (10 + epsilon)), (np_log_pos (0.1 + epsilon)),
      (np_log_pos (0.2 + epsilon)), (np_log_neg (-5 + epsilon))
      by (unfold epsilon; lra).
    reflexivity. }
  split; [| exact Hdrop].
  rewrite train_data_filter, Hdrop; reflexivity.
Qed.

(** C6, as stated, fails.  Three weeks in time order, the middle one with
    more returns than sales: the week after it loses its lag and is
    dropped, and one row is left, not two.  And two weeks in time order
    that lie after the training window leave no training row. *)
Lemma feature_rows_of_ordered_series_counterexample :
  (PartB.time_ordered [week_1; returns_week; week_3]
   /\ length [week_1; returns_week; week_3] = 3%nat
   /\ length (PartB.dropna
                (PartB.add_features
                   (PartB.sort_values [week_1; returns_week; week_3]))) = 1%nat
   /\ length (PartB.train_data [week_1; returns_week; week_3]) = 1%nat)
  /\ (PartB.time_ordered [week_52; week_53]
      /\ Forall PartB.well_formed [week_52; week_53]
      /\ length [week_52; week_53] = 2%nat
      /\ PartB.train_data [week_52; week_53] = []).
Proof.
  destruct train_data_after_returns as [Htrain Hdrop].
  split.
  - split; [repeat constructor |].
    split; [reflexivity |].
    split; [rewrite Hdrop; reflexivity | rewrite Htrain; reflexivity].
  - assert (Hord : PartB.time_ordered [week_52; week_53]) by (repeat constructor).
    assert (Hwf : Forall PartB.well_formed [week_52; week_53]).
    { apply Forall_cons; [split; simpl; lra |].
      apply Forall_cons; [split; simpl; lra | apply Forall_nil]. }
    split; [exact Hord |]. split; [exact Hwf |]. split; [reflexivity |].
    rewrite train_data_filter, (sort_values_of_time_ordered _ Hord).
    rewrite (dropna_add_features _ Hwf), add_features_rows_from.
    reflexivity.
Qed.

(* ================================================================== *)
(** * Epsilon in the feature columns                                   *)
(* ================================================================== *)

Lemma rows_from_current (df : list PartB.row) :
  Forall PartB.well_formed df ->
  forall ps pd,
    Forall (fun r =>
              PartB.log_sales r
                = Fin (ln (PartB.sales_units (PartB.base r) + epsilon))
              /\ PartB.log_disc r
                 = Fin (ln (PartB.discount_per (PartB.base r) + epsilon)))
      (PartB.rows_from ps pd df).
Proof.
  induction 1 as [| r df [Hs Hd] Hwf IH]; intros ps pd; cbn [PartB.rows_from].
  - constructor.
  - constructor; [| apply IH].
    cbn [PartB.log_sales PartB.log_disc PartB.base].
    split; apply log_eps_nonneg; assumption.
Qed.

Lemma rows_from_lags_finite (df : list PartB.row) :
  Forall PartB.well_formed df ->
  forall s d, 0 <= s -> 0 <= d ->
    Forall (fun r => is_finite (PartB.log_lag_sales r)
                     /\ is_finite (PartB.log_lag_disc r))
      (PartB.rows_from (Fin s) (Fin d) df).
Proof.
  induction 1 as [| r df [Hs Hd] Hwf IH]; intros s d Hs0 Hd0; cbn [PartB.rows_from].
  - constructor.
  - constructor; [| apply IH; assumption].
    cbn [PartB.log_lag_sales PartB.log_lag_disc].
    rewrite (log_eps_nonneg s Hs0), (log_eps_nonneg d Hd0); split; exact I.
Qed.

(** Line [i] of the frame belongs to line [i] of the series and holds
    the logarithms of its values plus epsilon. *)
Lemma rows_from_nth (df : list PartB.row) :
  forall ps pd i r,
    nth_error df i = Some r ->
    exists fr,
      nth_error (PartB.rows_from ps pd df) i = Some fr
      /\ PartB.base fr = r
      /\ PartB.log_sales fr = np_log (Fin (PartB.sales_units r) + Fin epsilon)%fl
      /\ PartB.log_disc fr = np_log (Fin (PartB.discount_per r) + Fin epsilon)%fl.
Proof.
  induction df as [| r0 df IH]; intros ps pd i r Hr; [destruct i; discriminate |].
  destruct i as [| i]; cbn in Hr.
  - injection Hr as <-; eexists; cbn; repeat split; reflexivity.
  - cbn [PartB.rows_from nth_error]; apply IH; exact Hr.
Qed.

(** Line [k + 1] of the frame holds, as its lags, the logarithms of the
    values of line [k] of the series plus epsilon. *)
Lemma rows_from_nth_lag (df : list PartB.row) :
  forall ps pd k p r,
    nth_error df k = Some p ->
    nth_error df (S k) = Some r ->
    exists fr,
      nth_error (PartB.rows_from ps pd df) (S k) = Some fr
      /\ PartB.base fr = r
      /\ PartB.log_lag_sales fr
         = np_log (Fin (PartB.sales_units p) + Fin epsilon)%fl
      /\ PartB.log_lag_disc fr
         = np_log (Fin (PartB.discount_per p) + Fin epsilon)%fl.
Proof.
  induction df as [| r0 df IH]; intros ps pd k p r Hp Hr; [destruct k; discriminate |].
  destruct k as [| k].
  - cbn in Hp; injection Hp as <-.
    destruct df as [| r1 df]; [discriminate |].
    cbn in Hr; injection Hr as <-.
    eexists; cbn; repeat split; reflexivity.
  - cbn [nth_error] in Hp, Hr.
    cbn [PartB.rows_from nth_error]; eapply IH; eauto.
Qed.

(** C7.  In the Feature Builder every logarithm is taken of the value
    plus epsilon.  The frame has one line per line of the series, in the
    same order; line i holds [ln(sales_i + epsilon)] and
    [ln(discount_i + epsilon)], and each later line holds as its lags the
    same logarithms of the line before.  So for sales and discounts that
    are zero (or positive) no logarithm is undefined: every log column
    entry is finite, the missing lag of the first line apart, and a zero
    value gives [ln epsilon], in the current columns and in the lagged
    ones. *)
Theorem epsilon_keeps_logarithms_finite (df : list PartB.row) :
  Forall PartB.well_formed df ->
  let frame := PartB.add_features df in
  map PartB.base frame = df
  /\ (forall i r, nth_error df i = Some r ->
        exists fr,
          nth_error frame i = Some fr
          /\ PartB.base fr = r
          /\ PartB.log_sales fr = Fin (ln (PartB.sales_units r + epsilon))
          /\ PartB.log_disc fr = Fin (ln (PartB.discount_per r + epsilon))
          /\ (PartB.sales_units r = 0 -> PartB.log_sales fr = Fin (ln epsilon))
          /\ (PartB.discount_per r = 0 -> PartB.log_disc fr = Fin (ln epsilon)))
  /\ (forall k p r, nth_error df k = Some p -> nth_error df (S k) = Some r ->
        exists fr,
          nth_error frame (S k) = Some fr
          /\ PartB.base fr = r
          /\ PartB.log_lag_sales fr = Fin (ln (PartB.sales_units p + epsilon))
          /\ PartB.log_lag_disc fr = Fin (ln (PartB.discount_per p + epsilon))
          /\ (PartB.sales_units p = 0 -> PartB.log_lag_sales fr = Fin (ln epsilon))
          /\ (PartB.discount_per p = 0 -> PartB.log_lag_disc fr = Fin (ln epsilon)))
  /\ Forall (fun r =>
               PartB.log_sales r
                 = Fin (ln (PartB.sales_units (PartB.base r) + epsilon))
               /\ PartB.log_disc r
                  = Fin (ln (PartB.discount_per (PartB.base r) + epsilon)))
       frame
  /\ Forall (fun r => is_finite (PartB.log_lag_sales r)
                      /\ is_finite (PartB.log_lag_disc r))
       (tl frame)
  /\ (forall i a b,
        nth_error frame i = Some a ->
        nth_error frame (S i) = Some b ->
        PartB.log_lag_sales b = PartB.log_sales a
        /\ PartB.log_lag_disc b = PartB.log_disc a)
  /\ (forall r, In r frame ->
        (PartB.sales_units (PartB.base r) = 0 ->
         PartB.log_sales r = Fin (ln epsilon))
        /\ (PartB.discount_per (PartB.base r) = 0 ->
            PartB.log_disc r = Fin (ln epsilon))).
Proof.
  intros Hwf frame; subst frame; rewrite add_features_rows_from.
  pose proof (rows_from_current df Hwf NaN NaN) as Hcur.
  assert (Hwf_at : forall i r, nth_error df i = Some r -> PartB.well_formed r).
  { intros i r Hr; rewrite Forall_forall in Hwf; apply Hwf.
    eapply nth_error_In; exact Hr. }
  split; [apply rows_from_base |].
  split.
  { intros i r Hr.
    destruct (rows_from_nth df NaN NaN i r Hr) as (fr & Hfr & Hbase & Hs & Hd).
    destruct (Hwf_at i r Hr) as [Hs0 Hd0].
    rewrite (log_eps_nonneg _ Hs0) in Hs; rewrite (log_eps_nonneg _ Hd0) in Hd.
    exists fr; repeat split; try assumption.
    - intros Hz; rewrite Hs, Hz, Rplus_0_l; reflexivity.
    - intros Hz; rewrite Hd, Hz, Rplus_0_l; reflexivity. }
  split.
  { intros k p r Hp Hr.
    destruct (rows_from_nth_lag df NaN NaN k p r Hp Hr)
      as (fr & Hfr & Hbase & Hs & Hd).
    destruct (Hwf_at k p Hp) as [Hs0 Hd0].
    rewrite (log_eps_nonneg _ Hs0) in Hs; rewrite (log_eps_nonneg _ Hd0) in Hd.
    exists fr; repeat split; try assumption.
    - intros Hz; rewrite Hs, Hz, Rplus_0_l; reflexivity.
    - intros Hz; rewrite Hd, Hz, Rplus_0_l; reflexivity. }
  split; [exact Hcur |].
  split; [| split].
  - destruct Hwf as [| r df [Hs Hd] Hwf]; cbn [PartB.rows_from tl].
    + constructor.
    + apply rows_from_lags_finite; assumption.
  - apply rows_from_lag.
  - intros r Hin.
    rewrite Forall_forall in Hcur; destruct (Hcur r Hin) as [Hs Hd].
    split; intros Hz; [rewrite Hs | rewrite Hd]; rewrite Hz, Rplus_0_l; reflexivity.
Qed.

(** A week without sales and without discount between ordinary weeks:
    its own logarithms and the lags of the week after it are
    [ln epsilon]. *)
Lemma epsilon_keeps_logarithms_finite_witness :
  let df := [week_1; week_2; week_3; week_4] in
  let frame := PartB.add_features df in
  Forall PartB.well_formed df
  /\ map PartB.base frame = df
  /\ (exists fr,
        nth_error frame 2 = Some fr
        /\ PartB.base fr = week_3
        /\ PartB.log_sales fr = Fin (ln epsilon)
        /\ PartB.log_disc fr = Fin (ln epsilon))
  /\ (exists fr,
        nth_error frame 3 = Some fr
        /\ PartB.base fr = week_4
        /\ PartB.log_lag_sales fr = Fin (ln epsilon)
        /\ PartB.log_lag_disc fr = Fin (ln epsilon)).
Proof.
  intros df frame.
  assert (H : Forall PartB.well_formed df).
  { repeat (apply Forall_cons; [split; simpl; lra |]); apply Forall_nil. }
  destruct (epsilon_keeps_logarithms_finite df H) as (Hbase & Hcur & Hlag & _).
  split; [exact H |]. split; [exact Hbase |].
  split.
  - destruct (Hcur 2%nat week_3 eq_refl) as (fr & Hfr & Hb & _ & _ & Hs & Hd).
    exists fr; repeat split; auto.
  - destruct (Hlag 2%nat week_3 week_4 eq_refl eq_refl)
      as (fr & Hfr & Hb & _ & _ & Hs & Hd).
    exists fr; repeat split; auto.
Defined.

(* ================================================================== *)
(** * Series that are out of order or repeat a week                    *)
(* ================================================================== *)

Lemma train_data_sorted (df_ts : list PartB.row) :
  PartB.train_data (PartB.sort_values df_ts) = PartB.train_data df_ts.
Proof. unfold PartB.train_data; rewrite sort_values_idempotent; reflexivity. Qed.

(** The training rows of two well-formed lines within the training
    window, already in order: the second line alone. *)
Lemma train_data_two_lines (a b : PartB.row) :
  PartB.key_le a b = true ->
  PartB.well_formed a -> PartB.well_formed b ->
  PartB.train_mask
    (PartB.mkFrow b
       (np_log (Fin (PartB.sales_units b) + Fin epsilon)%fl)
       (np_log (Fin (PartB.sales_units a) + Fin epsilon)%fl)
       (np_log (Fin (PartB.discount_per b) + Fin epsilon)%fl)
       (np_log (Fin (PartB.discount_per a) + Fin epsilon)%fl)
       (PartB.promo_week_flg b)) = true ->
  PartB.train_data [a; b]
  = [PartB.mkFrow b
       (np_log (Fin (PartB.sales_units b) + Fin epsilon)%fl)
       (np_log (Fin (PartB.sales_units a) + Fin epsilon)%fl)
       (np_log (Fin (PartB.discount_per b) + Fin epsilon)%fl)
       (np_log (Fin (PartB.discount_per a) + Fin epsilon)%fl)
       (PartB.promo_week_flg b)].
Proof.
  intros Hab Ha Hb Hmask.
  assert (Hord : PartB.time_ordered [a; b]) by (repeat constructor; exact Hab).
  rewrite train_data_filter, (sort_values_of_time_ordered _ Hord).
  rewrite dropna_add_features
    by (apply Forall_cons; [exact Ha | apply Forall_cons; [exact Hb | apply Forall_nil]]).
  rewrite add_features_rows_from.
  cbn [PartB.rows_from tl filter]; rewrite Hmask; reflexivity.
Qed.

(** C9 (as amended).  The script checks nothing about the series.  It
    sorts the lines by (year, week), which keeps every line, repeated
    weeks included, and builds the training rows from the sorted frame;
    a series given out of order is treated exactly as the same series in
    order.  The Feature Builder raises no error: what part B ends with
    is what the regression call returns or raises on these rows, and for
    fewer than 2 lines that call receives an empty training set. *)
Theorem series_is_sorted_not_checked
  (df_ts : list PartB.row)
  (add_constant : list (list float) -> list (list float))
  (OLS_fit : list float -> list (list float) -> PartB.outcome PartB.params) :
  Permutation df_ts (PartB.sort_values df_ts)
  /\ PartB.time_ordered (PartB.sort_values df_ts)
  /\ PartB.train_data df_ts = PartB.train_data (PartB.sort_values df_ts)
  /\ PartB.part_b (Some df_ts) add_constant OLS_fit
     = PartB.part_b (Some (PartB.sort_values df_ts)) add_constant OLS_fit
  /\ PartB.part_b (Some df_ts) add_constant OLS_fit
     = OLS_fit (PartB.y_col (PartB.train_data df_ts))
         (add_constant (PartB.X_cols (PartB.train_data df_ts)))
  /\ ((length df_ts < 2)%nat -> PartB.train_data df_ts = []).
Proof.
  split; [apply sort_values_permutation |].
  split; [apply sort_values_time_ordered |].
  split; [symmetry; apply train_data_sorted |].
  split; [unfold PartB.part_b; rewrite train_data_sorted; reflexivity |].
  split; [reflexivity |].
  intros Hlen; rewrite train_data_filter, short_series_no_features by exact Hlen.
  reflexivity.
Qed.

(** C9, as stated, fails.  Two weeks given in the wrong order, and one
    week given twice, raise nothing: the first series yields the
    training row of the same weeks in the right order, the second one a
    training row whose "previous week" is the week itself, and part B
    goes on to the regression call with that row. *)
Lemma series_is_sorted_not_checked_counterexample :
  (~ PartB.time_ordered [week_2; week_1]
   /\ PartB.train_data [week_2; week_1] = PartB.train_data [week_1; week_2]
   /\ map PartB.base (PartB.train_data [week_2; week_1]) = [week_2]
   /\ forall add_constant OLS_fit,
        PartB.part_b (Some [week_2; week_1]) add_constant OLS_fit
        = OLS_fit (PartB.y_col (PartB.train_data [week_1; week_2]))
            (add_constant (PartB.X_cols (PartB.train_data [week_1; week_2]))))
  /\ (~ PartB.strictly_time_ordered [week_1; week_1]
      /\ map PartB.base (PartB.train_data [week_1; week_1]) = [week_1]
      /\ forall add_constant OLS_fit,
           PartB.part_b (Some [week_1; week_1]) add_constant OLS_fit
           = OLS_fit (PartB.y_col (PartB.train_data [week_1; week_1]))
               (add_constant (PartB.X_cols (PartB.train_data [week_1; week_1])))).
Proof.
  assert (Hwf1 : PartB.well_formed week_1) by (split; simpl; lra).
  assert (Hwf2 : PartB.well_formed week_2) by (split; simpl; lra).
  assert (Hswap : PartB.train_data [week_2; week_1] = PartB.train_data [week_1; week_2]).
  { rewrite <- (train_data_sorted [week_2; week_1]); reflexivity. }
  split.
  - split.
    { intros Hs; inversion Hs as [| ? ? _ Hhd]; subst.
      inversion Hhd; subst; discriminate. }
    split; [exact Hswap |].
    split.
    { rewrite Hswap, (train_data_two_lines week_1 week_2); auto. }
    intros add_constant OLS_fit; unfold PartB.part_b; rewrite Hswap; reflexivity.
  - split.
    { intros Hs; inversion Hs as [| ? ? _ Hhd]; subst.
      inversion Hhd; subst; discriminate. }
    split; [| reflexivity].
    rewrite (train_data_two_lines week_1 week_1); auto.
Qed.

(* ================================================================== *)
(** * The optimiser's inputs and the script around the two library calls *)
(* ================================================================== *)

(** The search space handed to the optimiser: four boxes [0.10, 0.60],
    three differences of neighbours required to be >= 0, and an initial
    guess that lies in every box and meets every constraint. *)
Lemma search_space_and_initial_guess :
  PartC.bounds = [(0.10, 0.60); (0.10, 0.60); (0.10, 0.60); (0.10, 0.60)]
  /\ length PartC.constraints = 3%nat
  /\ (forall d i, (i < 3)%nat ->
        nth i PartC.constraints (fun _ => 0) d = PartC.at_ d (S i) - PartC.at_ d i)
  /\ Forall2 (fun g b => fst b <= g <= snd b) PartC.initial_guess PartC.bounds
  /\ Forall (fun c => 0 <= c PartC.initial_guess) PartC.constraints.
Proof.
  split; [reflexivity |].
  split; [reflexivity |].
  split.
  - intros d i Hi.
    destruct i as [| [| [| i]]]; try reflexivity; lia.
  - split.
    + unfold PartC.initial_guess, PartC.bounds; cbn.
      repeat constructor; cbn; lra.
    + unfold PartC.constraints, PartC.initial_guess, PartC.at_.
      repeat constructor; cbn; lra.
Qed.

(** Part C reports what the optimiser returned, as it returned it: the
    script itself checks neither the bounds, nor the order of the
    discounts, nor the revenue against the initial guess. *)
Lemma part_c_reports_the_solver
  (inp : PartC.inputs)
  (minimize : (list R -> option float) -> list R -> list (R * R)
              -> list (list R -> R) -> PartC.OptimizeResult)
  (coef : PartB.params) :
  PartC.part_c inp minimize (PartB.Returned coef)
  = if PartC.success (PartC.solution inp minimize coef)
    then PartC.Successful (PartC.x (PartC.solution inp minimize coef))
           (- PartC.fun_ (PartC.solution inp minimize coef))%fl
    else PartC.Failed.
Proof. reflexivity. Qed.

(** When the regression call raises, part C is skipped; when it returns
    coefficients, whatever they are, part C optimises with them.  The
    script has no check of its own on the number of rows or the rank of
    the design. *)
Lemma part_c_after_part_b
  (inp : PartC.inputs)
  (minimize : (list R -> option float) -> list R -> list (R * R)
              -> list (list R -> R) -> PartC.OptimizeResult)
  (add_constant : list (list float) -> list (list float))
  (OLS_fit : list float -> list (list float) -> PartB.outcome PartB.params)
  (df_ts : list PartB.row) :
  let y := PartB.y_col (PartB.train_data df_ts) in
  let X := add_constant (PartB.X_cols (PartB.train_data df_ts)) in
  (forall e,
     OLS_fit y X = PartB.Raised e ->
     PartC.part_c inp minimize (PartB.part_b (Some df_ts) add_constant OLS_fit)
     = PartC.Skipped)
  /\ (forall coef,
        OLS_fit y X = PartB.Returned coef ->
        PartC.part_c inp minimize (PartB.part_b (Some df_ts) add_constant OLS_fit)
        = PartC.part_c inp minimize (PartB.Returned coef)).
Proof.
  intros y X; split; intros ? H; unfold PartB.part_b; fold y; fold X;
    rewrite H; reflexivity.
Qed.

(* ================================================================== *)
(** * The objective function on vectors of any length                  *)
(* ================================================================== *)

(** The loop reads the vector only at the indices of its range. *)
Lemma for_weeks_ext (inp : PartC.inputs) (coef : PartB.params) (ds ds' : list R)
  (range : list nat) :
  (forall i, In i range -> nth_error ds i = nth_error ds' i) ->
  forall st,
    PartC.for_weeks inp coef ds range st = PartC.for_weeks inp coef ds' range st.
Proof.
  induction range as [| i range IH]; intros Hsame st; [reflexivity |].
  cbn [PartC.for_weeks].
  rewrite <- (Hsame i) by (left; reflexivity).
  destruct (nth_error ds i); [| reflexivity].
  apply IH; intros j Hj; apply Hsame; right; exact Hj.
Qed.

(** A vector that is too short stops the loop with an [IndexError]. *)
Lemma for_weeks_short (inp : PartC.inputs) (coef : PartB.params) (ds : list R)
  (range : list nat) :
  (exists i, In i range /\ (length ds <= i)%nat) ->
  forall st, PartC.for_weeks inp coef ds range st = None.
Proof.
  induction range as [| j range IH]; intros (i & Hin & Hlen) st.
  - destruct Hin.
  - cbn [PartC.for_weeks].
    destruct (nth_error ds j) as [d |] eqn:Hd; [| reflexivity].
    destruct Hin as [-> | Hin].
    + apply nth_error_None in Hlen; congruence.
    + apply IH; exists i; split; assumption.
Qed.

(** X1.  [objective_function] raises [IndexError] exactly on vectors of
    fewer than four discounts; on a longer vector it returns a value,
    and that value is the one of the first four discounts: what comes
    after them is never read. *)
Theorem objective_function_reads_four_discounts
  (inp : PartC.inputs) (coef : PartB.params) (discounts : list R) :
  (PartC.objective_function inp coef discounts = None
   <-> (length discounts < 4)%nat)
  /\ PartC.objective_function inp coef discounts
     = (if (length discounts <? 4)%nat then None
        else PartC.objective_function inp coef (firstn 4 discounts)).
Proof.
  assert (Hshort : (length discounts < 4)%nat ->
                   PartC.objective_function inp coef discounts = None).
  { intros Hlen; unfold PartC.objective_function, PartC.after_weeks.
    rewrite for_weeks_short; [reflexivity |].
    exists 3%nat; split; [cbn; auto | lia]. }
  assert (Hfirst : PartC.objective_function inp coef discounts
                   = PartC.objective_function inp coef (firstn 4 discounts)
                     \/ (length discounts < 4)%nat).
  { destruct (Nat.ltb_spec (length discounts) 4) as [Hlt | Hge]; [right; exact Hlt |].
    left; unfold PartC.objective_function, PartC.after_weeks.
    rewrite (for_weeks_ext inp coef discounts (firstn 4 discounts)); [reflexivity |].
    intros i Hi; rewrite nth_error_firstn.
    apply in_seq in Hi.
    destruct (Nat.ltb_spec i 4); [reflexivity | lia]. }
  assert (Hlong : (4 <= length discounts)%nat ->
                  PartC.objective_function inp coef discounts <> None).
  { intros Hlen; unfold PartC.objective_function, PartC.after_weeks.
    destruct discounts as [| d0 [| d1 [| d2 [| d3 rest]]]]; cbn in Hlen; try lia.
    cbn; discriminate. }
  split.
  - split; [| exact Hshort].
    intros Hnone.
    destruct (Nat.ltb_spec (length discounts) 4) as [Hlt | Hge]; [exact Hlt |].
    exfalso; exact (Hlong Hge Hnone).
  - destruct (Nat.ltb_spec (length discounts) 4) as [Hlt | Hge].
    + apply Hshort; exact Hlt.
    + destruct Hfirst as [H | H]; [exact H | lia].
Qed.

(* ================================================================== *)
(** * A prediction that is not a number                                *)
(* ================================================================== *)

Lemma flt_nan_r (a : float) : flt a NaN = false.
Proof. destruct a; reflexivity. Qed.

(** A week whose predicted log sales are [nan] sells [nan] units, earns
    [nan] and leaves a [nan] inventory. *)
Lemma week_nan_prediction (inp : PartC.inputs) (coef : PartB.params)
  (st : PartC.state) (n : nat) (d : R) :
  PartC.pred_log_sales inp coef st n d = NaN ->
  PartC.actual_sales inp coef st n d = NaN
  /\ PartC.total_revenue (PartC.week inp coef st n d) = NaN
  /\ PartC.current_inventory (PartC.week inp coef st n d) = NaN.
Proof.
  intros Hnan.
  assert (Hact : PartC.actual_sales inp coef st n d = NaN).
  { unfold PartC.actual_sales, PartC.predicted_sales, py_min.
    rewrite Hnan; cbn [np_exp]; rewrite flt_nan_r; reflexivity. }
  split; [exact Hact |].
  cbn [PartC.week PartC.total_revenue PartC.current_inventory].
  unfold PartC.weekly_revenue; rewrite Hact; cbn [fmul].
  split.
  - destruct (PartC.total_revenue st); reflexivity.
  - destruct (PartC.current_inventory st); reflexivity.
Qed.

(** A total revenue that is [nan] stays [nan] through the later weeks. *)
Lemma total_revenue_nan_stays (inp : PartC.inputs) (coef : PartB.params)
  (ds : list R) (i : nat) :
  (exists st, PartC.after_weeks inp coef ds i = Some st
              /\ PartC.total_revenue st = NaN) ->
  forall j, (i <= j <= length ds)%nat ->
    exists st, PartC.after_weeks inp coef ds j = Some st
               /\ PartC.total_revenue st = NaN.
Proof.
  intros Hi j.
  induction j as [| j IH]; intros Hj.
  - assert (i = 0)%nat by lia; subst i; exact Hi.
  - destruct (Nat.eq_dec i (S j)) as [-> | Hne]; [exact Hi |].
    destruct IH as (st & Hst & Hnan); [lia |].
    destruct (nth_error ds j) as [d |] eqn:Hd;
      [| apply nth_error_None in Hd; lia].
    exists (PartC.week inp coef st j d).
    rewrite after_weeks_S, Hst, Hd; split; [reflexivity |].
    cbn [PartC.week PartC.total_revenue]; rewrite Hnan; reflexivity.
Qed.

(** X2.  A week whose predicted log sales are [nan] ([inf - inf] or
    [0 * inf] among the terms of the regression equation) raises
    nothing: the week sells [nan] units, every later total is [nan], and
    [objective_function] returns [nan] to the optimiser. *)
Theorem nan_prediction_gives_nan_objective
  (inp : PartC.inputs) (coef : PartB.params) (discounts : list R)
  (i : nat) (st : PartC.state) (d : R) :
  (4 <= length discounts)%nat ->
  (i < 4)%nat ->
  PartC.after_weeks inp coef discounts i = Some st ->
  nth_error discounts i = Some d ->
  PartC.pred_log_sales inp coef st i d = NaN ->
  PartC.actual_sales inp coef st i d = NaN
  /\ PartC.objective_function inp coef discounts = Some NaN.
Proof.
  intros Hlen Hi Hst Hd Hnan.
  destruct (week_nan_prediction inp coef st i d Hnan) as (Hact & Htot & _).
  split; [exact Hact |].
  assert (Hnext : exists s, PartC.after_weeks inp coef discounts (S i) = Some s
                            /\ PartC.total_revenue s = NaN).
  { exists (PartC.week inp coef st i d).
    rewrite after_weeks_S, Hst, Hd; split; [reflexivity | exact Htot]. }
  destruct (total_revenue_nan_stays inp coef discounts (S i) Hnext 4)
    as (s & Hs & Hs_nan); [lia |].
  unfold PartC.objective_function; rewrite Hs, Hs_nan; reflexivity.
Qed.

(** The second week of two weeks without discount, at the scenario's
    coefficients: [0.9 * -inf + (-0.2) * -inf]. *)
Lemma zero_start_second_week (st : PartC.state) :
  st = PartC.week PartC.case_inputs fixture_coefficients
         (PartC.init PartC.case_inputs) 0 0 ->
  PartC.pred_log_sales PartC.case_inputs fixture_coefficients st 1 0 = NaN.
Proof.
  intros ->.
  assert (Hfirst : PartC.pred_log_sales PartC.case_inputs fixture_coefficients
                     (PartC.init PartC.case_inputs) 0 0 = NInf).
  { unfold PartC.pred_log_sales.
    cbn [PartC.init PartC.log_lag_sales PartC.log_lag_discount PartC.case_inputs
         PartC.prev_sale PartC.prev_disc].
    rewrite np_log_zero, (np_log_pos 48), (np_log_pos 0.579) by lra.
    cbn [fmul fadd fixture_coefficients PartB.coef_log_disc].
    rewrite scaled_inf_neg by lra; reflexivity. }
  unfold PartC.pred_log_sales.
  cbn [PartC.week PartC.log_lag_sales PartC.log_lag_discount].
  unfold PartC.actual_sales, PartC.predicted_sales.
  rewrite Hfirst; cbn [np_exp PartC.init PartC.current_inventory].
  rewrite py_min_fin, np_log_zero.
  rewrite log_eps_nonneg by (apply Rmin_glb; simpl; lra).
  cbn [fmul fadd fixture_coefficients PartB.coef_log_disc PartB.coef_log_lag_disc].
  rewrite scaled_inf_neg, scaled_inf_pos by lra; reflexivity.
Qed.

Lemma nan_prediction_gives_nan_objective_witness :
  let st := PartC.week PartC.case_inputs fixture_coefficients
              (PartC.init PartC.case_inputs) 0 0 in
  (4 <= length zero_start_discounts)%nat
  /\ (1 < 4)%nat
  /\ PartC.after_weeks PartC.case_inputs fixture_coefficients
       zero_start_discounts 1 = Some st
  /\ nth_error zero_start_discounts 1 = Some 0
  /\ PartC.pred_log_sales PartC.case_inputs fixture_coefficients st 1 0 = NaN
  /\ PartC.actual_sales PartC.case_inputs fixture_coefficients st 1 0 = NaN
  /\ PartC.objective_function PartC.case_inputs fixture_coefficients
       zero_start_discounts = Some NaN.
Proof.
  intros st.
  assert (H1 : (4 <= length zero_start_discounts)%nat) by (simpl; lia).
  assert (H2 : (1 < 4)%nat) by lia.
  assert (H3 : PartC.pred_log_sales PartC.case_inputs fixture_coefficients st 1 0 = NaN)
    by (apply zero_start_second_week; reflexivity).
  split; [exact H1 |]. split; [exact H2 |].
  split; [reflexivity |]. split; [reflexivity |]. split; [exact H3 |].
  exact (nan_prediction_gives_nan_objective PartC.case_inputs fixture_coefficients
           zero_start_discounts 1 st 0 H1 H2 eq_refl eq_refl H3).
Defined.

(* ================================================================== *)
(** * The order of the lines in the file                               *)
(* ================================================================== *)

Lemma key_le_iff (a b : PartB.row) :
  PartB.key_le a b = true
  <-> (PartB.year_no a < PartB.year_no b
       \/ (PartB.year_no a = PartB.year_no b /\ PartB.week_no a <= PartB.week_no b))%Z.
Proof.
  unfold PartB.key_le.
  rewrite orb_true_iff, andb_true_iff, Z.ltb_lt, Z.eqb_eq, Z.leb_le; reflexivity.
Qed.

Lemma key_le_trans (a b c : PartB.row) :
  PartB.key_le a b = true -> PartB.key_le b c = true -> PartB.key_le a c = true.
Proof. rewrite !key_le_iff; lia. Qed.

Lemma key_le_antisym (a b : PartB.row) :
  PartB.key_le a b = true -> PartB.key_le b a = true -> row_key a = row_key b.
Proof.
  rewrite !key_le_iff; unfold row_key; intros H1 H2.
  f_equal; lia.
Qed.

Lemma key_le_refl (a : PartB.row) : PartB.key_le a a = true.
Proof. rewrite key_le_iff; lia. Qed.

(** Among lines with distinct keys, the key identifies the line. *)
Lemma row_of_key (l : list PartB.row) (a b : PartB.row) :
  NoDup (map row_key l) -> In a l -> In b l -> row_key a = row_key b -> a = b.
Proof.
  induction l as [| r l IH]; intros Hnd Ha Hb Hkey; [destruct Ha |].
  cbn [map] in Hnd; inversion Hnd as [| ? ? Hnotin Hnd']; subst.
  destruct Ha as [-> | Ha], Hb as [-> | Hb]; auto.
  - exfalso; apply Hnotin; rewrite Hkey; apply in_map; exact Hb.
  - exfalso; apply Hnotin; rewrite <- Hkey; apply in_map; exact Ha.
Qed.

Lemma time_ordered_strongly (l : list PartB.row) :
  PartB.time_ordered l -> StronglySorted (fun a b => PartB.key_le a b = true) l.
Proof.
  apply Sorted_StronglySorted.
  intros a b c; apply key_le_trans.
Qed.

(** Two time-ordered arrangements of the same lines, no key twice, are
    the same list. *)
Lemma time_ordered_unique (l1 : list PartB.row) :
  forall l2,
    PartB.time_ordered l1 -> PartB.time_ordered l2 ->
    Permutation l1 l2 -> NoDup (map row_key l1) -> l1 = l2.
Proof.
  induction l1 as [| a l1 IH]; intros l2 Hs1 Hs2 Hperm Hnd.
  - apply Permutation_nil in Hperm; auto.
  - destruct l2 as [| b l2];
      [apply Permutation_sym, Permutation_nil in Hperm; discriminate |].
    assert (Hab : a = b).
    { pose proof (time_ordered_strongly _ Hs1) as Hss1.
      pose proof (time_ordered_strongly _ Hs2) as Hss2.
      inversion Hss1 as [| ? ? _ Hall1]; subst.
      inversion Hss2 as [| ? ? _ Hall2]; subst.
      rewrite Forall_forall in Hall1, Hall2.
      assert (Hb_in : In b (a :: l1))
        by (eapply Permutation_in; [apply Permutation_sym; exact Hperm | left; auto]).
      assert (Ha_in : In a (b :: l2))
        by (eapply Permutation_in; [exact Hperm | left; auto]).
      assert (Hle_ab : PartB.key_le a b = true).
      { destruct Hb_in as [-> | Hb_in]; [apply key_le_refl | apply Hall1; exact Hb_in]. }
      assert (Hle_ba : PartB.key_le b a = true).
      { destruct Ha_in as [-> | Ha_in]; [apply key_le_refl | apply Hall2; exact Ha_in]. }
      apply (row_of_key (a :: l1)); auto using key_le_antisym.
      left; reflexivity. }
    subst b; f_equal.
    apply IH.
    + inversion Hs1; assumption.
    + inversion Hs2; assumption.
    + eapply Permutation_cons_inv; exact Hperm.
    + cbn [map] in Hnd; inversion Hnd; assumption.
Qed.

(** X5.  When no (year, week) occurs twice, the order of the lines in
    the file does not matter: two files with the same lines give the
    same sorted frame and the same training rows. *)
Theorem train_data_ignores_line_order (df1 df2 : list PartB.row) :
  Permutation df1 df2 ->
  NoDup (map row_key df1) ->
  PartB.sort_values df1 = PartB.sort_values df2
  /\ PartB.train_data df1 = PartB.train_data df2.
Proof.
  intros Hperm Hnd.
  assert (Hsort : PartB.sort_values df1 = PartB.sort_values df2).
  { apply time_ordered_unique.
    - apply sort_values_time_ordered.
    - apply sort_values_time_ordered.
    - rewrite <- (sort_values_permutation df1), <- (sort_values_permutation df2).
      exact Hperm.
    - eapply Permutation_NoDup; [| exact Hnd].
      apply Permutation_map, sort_values_permutation. }
  split; [exact Hsort |].
  unfold PartB.train_data; rewrite Hsort; reflexivity.
Qed.

Lemma train_data_ignores_line_order_witness :
  Permutation [week_3; week_1; week_2] [week_2; week_3; week_1]
  /\ NoDup (map row_key [week_3; week_1; week_2])
  /\ PartB.sort_values [week_3; week_1; week_2]
     = PartB.sort_values [week_2; week_3; week_1]
  /\ PartB.train_data [week_3; week_1; week_2]
     = PartB.train_data [week_2; week_3; week_1].
Proof.
  assert (H1 : Permutation [week_3; week_1; week_2] [week_2; week_3; week_1]).
  { apply Permutation_sym, (Permutation_cons_app [week_3; week_1] []).
    rewrite app_nil_r; apply Permutation_refl. }
  assert (H2 : NoDup (map row_key [week_3; week_1; week_2])).
  { cbn [map row_key week_1 week_2 week_3 PartB.year_no PartB.week_no].
    apply NoDup_cons; [intros [H | [H | []]]; discriminate |].
    apply NoDup_cons; [intros [H | []]; discriminate |].
    apply NoDup_cons; [intros [] | apply NoDup_nil]. }
  split; [exact H1 |]. split; [exact H2 |].
  exact (train_data_ignores_line_order _ _ H1 H2).
Defined.

(* ================================================================== *)
(** * Which lines reach the regression                                 *)
(* ================================================================== *)

(** The first line of the frame has no lag and is always dropped. *)
Lemma dropna_first_line (df : list PartB.row) :
  PartB.dropna (PartB.add_features df) = PartB.dropna (tl (PartB.add_features df)).
Proof.
  rewrite add_features_rows_from.
  destruct df as [| r df]; reflexivity.
Qed.

Lemma filter_length_bound {A : Type} (f : A -> bool) (l : list A) :
  (length (filter f l) <= length l)%nat.
Proof.
  induction l as [| a l IH]; cbn; [lia |].
  destruct (f a); cbn; lia.
Qed.

(** X6.  For every series, whatever its values: the training rows are
    taken from the lines after the earliest one, so there are at most
    L - 1 of them; each lies in the training window (up to week 51 of
    2014), has both lags present, and belongs to a line of the file. *)
Theorem training_rows_come_from_later_lines (df_ts : list PartB.row) :
  PartB.train_data df_ts
  = filter PartB.train_mask
      (PartB.dropna (tl (PartB.add_features (PartB.sort_values df_ts))))
  /\ (length (PartB.train_data df_ts) <= length df_ts - 1)%nat
  /\ Forall (fun r =>
               PartB.train_mask r = true
               /\ isna (PartB.log_lag_sales r) = false
               /\ isna (PartB.log_lag_disc r) = false
               /\ In (PartB.base r) df_ts)
       (PartB.train_data df_ts).
Proof.
  assert (Heq : PartB.train_data df_ts
                = filter PartB.train_mask
                    (PartB.dropna (tl (PartB.add_features (PartB.sort_values df_ts))))).
  { rewrite train_data_filter, dropna_first_line; reflexivity. }
  split; [exact Heq |].
  split.
  - rewrite Heq.
    etransitivity; [apply filter_length_bound |].
    etransitivity; [apply filter_length_bound |].
    rewrite add_features_rows_from.
    pose proof (rows_from_length (PartB.sort_values df_ts) NaN NaN) as Hlen.
    pose proof (Permutation_length (sort_values_permutation df_ts)) as Hperm.
    destruct (PartB.rows_from NaN NaN (PartB.sort_values df_ts)); cbn in *; lia.
  - rewrite Forall_forall; intros r Hr.
    rewrite train_data_filter in Hr.
    apply filter_In in Hr; destruct Hr as [Hr Hmask].
    apply filter_In in Hr; destruct Hr as [Hr Hlags].
    apply andb_true_iff in Hlags; destruct Hlags as [Hs Hd].
    apply negb_true_iff in Hs, Hd.
    repeat split; try assumption.
    apply (Permutation_in _ (Permutation_sym (sort_values_permutation df_ts))).
    rewrite <- (rows_from_base (PartB.sort_values df_ts) NaN NaN),
      <- add_features_rows_from.
    apply in_map; exact Hr.
Qed.




(* ================================================================== *)
(** * Part A: which stores reach the clustering                        *)
(* ================================================================== *)

(** A division by zero never survives [replace]. *)
Lemma replace_inf_fdiv_zero (a : float) (z : R) :
  z = 0 -> PartA.replace_inf (PartA.fdiv a (Fin z)) = NaN.
Proof.
  intros ->; destruct a as [x | | |]; cbn.
  - destruct (Rlt_dec 0 0) as [H | _]; [lra |].
    unfold scaled_inf.
    destruct (Rlt_dec 0 x); [reflexivity |].
    destruct (Rlt_dec x 0); reflexivity.
  - destruct (Rlt_dec 0 0) as [H | _]; [lra | reflexivity].
  - destruct (Rlt_dec 0 0) as [H | _]; [lra | reflexivity].
  - reflexivity.
Qed.

Lemma fdiv_finite (x z : R) : z <> 0 -> PartA.fdiv (Fin x) (Fin z) = Fin (x / z).
Proof.
  intros Hz; cbn.
  destruct (Rlt_dec 0 z); [reflexivity |].
  destruct (Rlt_dec z 0); [reflexivity | lra].
Qed.

Lemma replace_inf_finite_or_nan (v : float) :
  is_finite (PartA.replace_inf v) \/ PartA.replace_inf v = NaN.
Proof. destruct v; cbn; auto. Qed.

(** X8.  What [replace] and [dropna] leave in [data_model]: every line
    has a finite markdown sensitivity, a finite net profit per square
    foot and a zone.  A store is dropped when its area is zero, missing
    or not a number (the division by the area), when its total discount
    is exactly -1 (the [+ 1] in the denominator does not help there), or
    when its zone is missing.  A store whose four numeric cells are
    numbers and whose zone is present is kept exactly when its area is
    not 0 and its discount is not -1, with the two quotients as its
    metrics. *)
Theorem data_model_keeps_defined_metrics (data : list PartA.store) :
  let line := fun s => PartA.replace (PartA.select (PartA.to_numeric s)) in
  PartA.data_model data
  = filter (fun r => negb (PartA.has_na r)) (map line data)
  /\ Forall (fun r => is_finite (PartA.markdown_sensitivity r)
                      /\ is_finite (PartA.np_per_sqft r)
                      /\ PartA.zone r <> None)
       (PartA.data_model data)
  /\ (forall s,
        PartA.fillna (PartA.Store_Area s) = Fin 0
        \/ PartA.fillna (PartA.Disc_Total s) = Fin (-1)
        \/ PartA.Zone s = None ->
        PartA.has_na (line s) = true)
  /\ (forall a x d c z,
        PartA.has_na (line (PartA.mkStore (Fin a) (Some z) (Fin x) (Fin d) (Fin c)))
          = false
        <-> a <> 0 /\ d <> -1)
  /\ (forall a x d c z,
        a <> 0 -> d <> -1 ->
        line (PartA.mkStore (Fin a) (Some z) (Fin x) (Fin d) (Fin c))
        = PartA.mkModelRow (Fin (x / (d + 1))) (Fin ((x + - c) / a)) (Some z)).
Proof.
  intros line.
  split; [reflexivity |].
  split.
  { unfold PartA.data_model; rewrite Forall_forall; intros r Hr.
    apply filter_In in Hr; destruct Hr as [Hin Hna].
    apply negb_true_iff in Hna; unfold PartA.has_na in Hna.
    apply orb_false_iff in Hna; destruct Hna as [Hna Hzone].
    apply orb_false_iff in Hna; destruct Hna as [Hms Hnp].
    apply in_map_iff in Hin; destruct Hin as (s & <- & _).
    cbn [PartA.replace PartA.markdown_sensitivity PartA.np_per_sqft PartA.zone] in *.
    repeat split.
    - destruct (replace_inf_finite_or_nan
                  (PartA.markdown_sensitivity (PartA.select (PartA.to_numeric s))))
        as [H | H]; [exact H | rewrite H in Hms; discriminate].
    - destruct (replace_inf_finite_or_nan
                  (PartA.np_per_sqft (PartA.select (PartA.to_numeric s))))
        as [H | H]; [exact H | rewrite H in Hnp; discriminate].
    - destruct (PartA.zone (PartA.select (PartA.to_numeric s))); [discriminate |].
      discriminate. }
  split.
  { intros s [Harea | [Hdisc | Hzone]]; subst line;
      unfold PartA.has_na, PartA.replace, PartA.select, PartA.Markdown_Sensitivity,
        PartA.NP_Per_SqFt, PartA.Net_Profit, PartA.to_numeric;
      cbn [PartA.markdown_sensitivity PartA.np_per_sqft PartA.zone PartA.Store_Area
           PartA.Sales_Total PartA.Disc_Total PartA.COGS_Total PartA.Zone].
    - rewrite Harea, (replace_inf_fdiv_zero _ 0 eq_refl).
      cbn [isna]; rewrite orb_true_r; reflexivity.
    - rewrite Hdisc; cbn [fadd].
      rewrite (replace_inf_fdiv_zero _ (-1 + 1)) by lra; reflexivity.
    - rewrite Hzone; apply orb_true_r. }
  assert (Hline : forall a x d c z,
            a <> 0 -> d <> -1 ->
            line (PartA.mkStore (Fin a) (Some z) (Fin x) (Fin d) (Fin c))
            = PartA.mkModelRow (Fin (x / (d + 1))) (Fin ((x + - c) / a)) (Some z)).
  { intros a x d c z Ha Hd; subst line.
    unfold PartA.replace, PartA.select, PartA.to_numeric, PartA.Markdown_Sensitivity,
      PartA.NP_Per_SqFt, PartA.Net_Profit.
    cbn [PartA.fillna isna PartA.Store_Area PartA.Sales_Total PartA.Disc_Total
         PartA.COGS_Total PartA.Zone PartA.markdown_sensitivity PartA.np_per_sqft
         PartA.zone fadd fsub fneg].
    rewrite (fdiv_finite x (d + 1)), (fdiv_finite (x + - c) a) by lra.
    reflexivity. }
  split; [| exact Hline].
  intros a x d c z; split.
  - intros Hkept.
    destruct (Req_dec a 0) as [-> | Ha].
    { subst line;
        unfold PartA.has_na, PartA.replace, PartA.select, PartA.Markdown_Sensitivity,
          PartA.NP_Per_SqFt, PartA.Net_Profit, PartA.to_numeric in Hkept.
      cbn [PartA.markdown_sensitivity PartA.np_per_sqft PartA.zone PartA.Store_Area
           PartA.Sales_Total PartA.Disc_Total PartA.COGS_Total PartA.Zone
           PartA.fillna isna] in Hkept.
      rewrite (replace_inf_fdiv_zero _ 0 eq_refl) in Hkept.
      cbn [isna] in Hkept; rewrite orb_true_r in Hkept; discriminate. }
    destruct (Req_dec d (-1)) as [-> | Hd]; [| split; assumption].
    subst line;
      unfold PartA.has_na, PartA.replace, PartA.select, PartA.Markdown_Sensitivity,
        PartA.NP_Per_SqFt, PartA.Net_Profit, PartA.to_numeric in Hkept.
    cbn [PartA.markdown_sensitivity PartA.np_per_sqft PartA.zone PartA.Store_Area
         PartA.Sales_Total PartA.Disc_Total PartA.COGS_Total PartA.Zone
         PartA.fillna isna fadd] in Hkept.
    rewrite (replace_inf_fdiv_zero _ (-1 + 1)) in Hkept by lra.
    discriminate.
  - intros [Ha Hd]; rewrite (Hline a x d c z Ha Hd); reflexivity.
Qed.

(* ================================================================== *)
(** * Part A: capping the outliers                                     *)
(* ================================================================== *)

Lemma flt_irrefl (a : float) : flt a a = false.
Proof.
  destruct a as [x | | |]; cbn; try reflexivity.
  destruct (Rlt_dec x x); [lra | reflexivity].
Qed.

(** X9.  [treat_outliers] caps the upper tail only.  Whatever the
    quantile is: the result has one value per input value, no value of
    the result compares above the quantile, and a value that does not
    compare above the quantile (a low outlier, a [nan]) is returned as it
    is.  When the quantile is a number, a finite value becomes the
    smaller of itself and the quantile. *)
Theorem treat_outliers_caps_the_upper_tail
  (quantile : list float -> R -> float) (series : list float) :
  let q99 := quantile series 0.99 in
  let capped := PartA.treat_outliers quantile series in
  length capped = length series
  /\ Forall (fun w => flt q99 w = false) capped
  /\ (forall i v, nth_error series i = Some v ->
        nth_error capped i = Some (if flt q99 v then q99 else v))
  /\ (forall i v, nth_error series i = Some v -> flt q99 v = false ->
        nth_error capped i = Some v)
  /\ (forall c i x, q99 = Fin c -> nth_error series i = Some (Fin x) ->
        nth_error capped i = Some (Fin (Rmin x c))).
Proof.
  intros q99 capped; subst capped; unfold PartA.treat_outliers; fold q99.
  assert (Hnth : forall i v, nth_error series i = Some v ->
            nth_error (map (fun v => if flt q99 v then q99 else v) series) i
            = Some (if flt q99 v then q99 else v)).
  { intros i v Hv; rewrite nth_error_map, Hv; reflexivity. }
  split; [apply length_map |].
  split.
  { rewrite Forall_forall; intros w Hw.
    apply in_map_iff in Hw; destruct Hw as (v & <- & _).
    destruct (flt q99 v) eqn:Hv; [apply flt_irrefl | exact Hv]. }
  split; [exact Hnth |].
  split.
  { intros i v Hv Hlow; rewrite (Hnth i v Hv), Hlow; reflexivity. }
  intros c i x Hq Hv; rewrite (Hnth i (Fin x) Hv), Hq.
  unfold flt, Rmin.
  destruct (Rlt_dec c x), (Rle_dec x c); try reflexivity; lra.
Qed.

Lemma assign_columns (df : list PartA.model_row) :
  forall ms np,
    length ms = length df -> length np = length df ->
    map PartA.markdown_sensitivity (PartA.assign df ms np) = ms
    /\ map PartA.np_per_sqft (PartA.assign df ms np) = np
    /\ map PartA.zone (PartA.assign df ms np) = map PartA.zone df.
Proof.
  induction df as [| r df IH]; intros [| a ms] [| b np] Hms Hnp;
    cbn in *; try discriminate; auto.
  destruct (IH ms np) as (H1 & H2 & H3); [lia | lia |].
  rewrite H1, H2, H3; auto.
Qed.

Lemma treat_outliers_length (quantile : list float -> R -> float) (series : list float) :
  length (PartA.treat_outliers quantile series) = length series.
Proof. unfold PartA.treat_outliers; apply length_map. Qed.

(** X10.  The two cappings of [data_model] do not interfere: each metric
    column is capped at the quantile of its own uncapped column, no line
    is added or removed, and the zones stay where they are. *)
Theorem capping_is_column_by_column
  (quantile : list float -> R -> float) (data : list PartA.store) :
  let df := PartA.data_model data in
  let out := PartA.capped quantile data in
  length out = length df
  /\ map PartA.zone out = map PartA.zone df
  /\ map PartA.markdown_sensitivity out
     = PartA.treat_outliers quantile (map PartA.markdown_sensitivity df)
  /\ map PartA.np_per_sqft out
     = PartA.treat_outliers quantile (map PartA.np_per_sqft df).
Proof.
  intros df out; subst out; unfold PartA.capped; fold df.
  set (ms := PartA.treat_outliers quantile (map PartA.markdown_sensitivity df)).
  assert (Hms : length ms = length df)
    by (subst ms; rewrite treat_outliers_length, length_map; reflexivity).
  destruct (assign_columns df ms (map PartA.np_per_sqft df) Hms (length_map _ _))
    as (H1 & H2 & H3).
  set (df1 := PartA.assign df ms (map PartA.np_per_sqft df)) in *.
  assert (Hlen1 : length df1 = length df).
  { rewrite <- (length_map PartA.zone df1), H3, length_map; reflexivity. }
  set (np := PartA.treat_outliers quantile (map PartA.np_per_sqft df1)).
  assert (Hnp : length np = length df1)
    by (subst np; rewrite treat_outliers_length, length_map; reflexivity).
  destruct (assign_columns df1 (map PartA.markdown_sensitivity df1) np
              (length_map _ _) Hnp) as (K1 & K2 & K3).
  split.
  { rewrite <- (length_map PartA.zone), K3, length_map; exact Hlen1. }
  split; [rewrite K3; exact H3 |].
  split; [rewrite K1; exact H1 |].
  rewrite K2; subst np; rewrite H2; reflexivity.
Qed.

(* ================================================================== *)
(** * api/index.py: the mock customer records                          *)
(* ================================================================== *)

(** The average time between purchases lies between 0 and the recency. *)
Lemma avg_inter_purchase_bounds (recency frequency : Z) :
  (0 <= recency)%Z ->
  (0 <= Api.avg_inter_purchase recency frequency <= recency)%Z.
Proof.
  intros Hr; unfold Api.avg_inter_purchase.
  destruct (Z.ltb_spec 1 frequency) as [Hf | Hf]; [| lia].
  assert (Hdiv : (0 < Z.max (frequency - 1) 1)%Z) by lia.
  split.
  - apply Z.div_pos; lia.
  - apply Z.div_le_upper_bound; [exact Hdiv | nia].
Qed.

Lemma next_purchase_is_one (recency frequency : Z) :
  (0 <= recency)%Z -> Api.next_purchase recency frequency = 1%Z.
Proof.
  intros Hr; unfold Api.next_purchase.
  pose proof (avg_inter_purchase_bounds recency frequency Hr); lia.
Qed.

(** What the ranges of the three personas give. *)
Lemma in_range_facts (d : Api.draws) :
  Api.in_range d ->
  (0 <= Api.recency_draw d <= 180)%Z
  /\ (1 <= Api.frequency_draw d <= 20)%Z
  /\ (500 <= Api.monetary_draw d <= 15000)%Z
  /\ (0 <= Api.churn_risk d <= 70)%Z.
Proof.
  unfold Api.in_range, Api.churn_risk.
  intros (Hin & Hr & Hf & Hm & Hc).
  destruct Hin as [Hp | [Hp | [Hp | []]]]; rewrite <- Hp in *;
    cbn [fst snd Api.recency_range Api.freq_range Api.monetary_range Api.churn] in *;
    lia.
Qed.

Lemma for_customers_spec
  (random : nat -> Api.draws) (predicted_clv : Z -> Z -> Z -> Z) (range : list nat) :
  (forall i, In i range -> Api.frequency_draw (random i) <> 0%Z) ->
  exists data,
    Api.for_customers random predicted_clv range = Some data
    /\ length data = length range
    /\ forall k c, nth_error data k = Some c ->
         exists i, nth_error range k = Some i
                   /\ Api.dummy_customer random predicted_clv i = Some c.
Proof.
  induction range as [| i range IH]; intros Hfreq.
  - exists []; cbn; repeat split; auto.
    intros [| k] c H; discriminate.
  - destruct IH as (rest & Hrest & Hlen & Hnth).
    { intros j Hj; apply Hfreq; right; exact Hj. }
    assert (Hi : exists c, Api.dummy_customer random predicted_clv i = Some c).
    { unfold Api.dummy_customer.
      destruct (Z.eqb_spec (Api.frequency_draw (random i)) 0) as [H0 | _]; eauto.
      exfalso; apply (Hfreq i); [left; reflexivity | exact H0]. }
    destruct Hi as [c Hc].
    exists (c :: rest); cbn [Api.for_customers]; rewrite Hc, Hrest.
    split; [reflexivity |]. split; [cbn; lia |].
    intros [| k] c' Hk; cbn in Hk |- *.
    + injection Hk as <-; exists i; auto.
    + apply Hnth; exact Hk.
Qed.

(** X11.  The mock customer records, for draws inside the personas'
    ranges: [generate_dummy_rfm_data] raises nothing and returns one
    record per customer (none for a negative count), numbered from
    1000 on.  In every record the next purchase prediction is 1,
    whatever was drawn, because the average time between purchases never
    exceeds the recency; that average lies between 0 and the recency;
    the churn risk lies between 0 and 70; and the cluster and the segment
    label are those of one persona. *)
Theorem mock_customer_records
  (random : nat -> Api.draws) (predicted_clv : Z -> Z -> Z -> Z)
  (num_customers : Z) :
  (forall i, Api.in_range (random i)) ->
  exists rfm_data,
    Api.generate_dummy_rfm_data random predicted_clv num_customers = Some rfm_data
    /\ length rfm_data = Z.to_nat num_customers
    /\ forall i c, nth_error rfm_data i = Some c ->
         Api.customerID c = (1000 + Z.of_nat i)%Z
         /\ Api.nextPurchasePrediction c = 1%Z
         /\ (0 <= Api.avgInterPurchaseTime c <= Api.recency c)%Z
         /\ (0 <= Api.churnRisk c <= 70)%Z
         /\ (1 <= Api.frequency c)%Z
         /\ exists p, In p Api.personas
                      /\ Api.cluster c = Api.persona_cluster p
                      /\ Api.segmentLabel c = Api.label p.
Proof.
  intros Hrange.
  destruct (for_customers_spec random predicted_clv (seq 0 (Z.to_nat num_customers)))
    as (data & Hdata & Hlen & Hnth).
  { intros i _; destruct (in_range_facts _ (Hrange i)) as (_ & Hf & _); lia. }
  exists data; split; [exact Hdata |].
  split; [rewrite Hlen, length_seq; reflexivity |].
  intros i c Hc.
  destruct (Hnth i c Hc) as (j & Hj & Hcust).
  assert (j = i).
  { assert (Hlt : (i < length (seq 0 (Z.to_nat num_customers)))%nat)
      by (apply nth_error_Some; congruence).
    rewrite length_seq in Hlt.
    rewrite nth_error_nth' with (d := 0%nat) in Hj by (rewrite length_seq; exact Hlt).
    rewrite seq_nth in Hj by exact Hlt; injection Hj as <-; reflexivity. }
  subst j.
  destruct (in_range_facts _ (Hrange i)) as (Hr & Hf & _ & Hchurn).
  unfold Api.dummy_customer in Hcust.
  destruct (Z.eqb_spec (Api.frequency_draw (random i)) 0) as [H0 | _]; [lia |].
  injection Hcust as <-; cbn.
  split; [reflexivity |].
  split; [apply next_purchase_is_one; lia |].
  split; [apply avg_inter_purchase_bounds; lia |].
  split; [exact Hchurn |].
  split; [lia |].
  exists (Api.choice (random i)); repeat split.
  destruct (Hrange i) as [Hin _]; exact Hin.
Qed.

Lemma mock_customer_records_witness :
  (forall i : nat, Api.in_range ((fun _ => Api.gold_draws) i))
  /\ exists rfm_data,
       Api.generate_dummy_rfm_data (fun _ => Api.gold_draws) (fun m _ _ => m) 3
         = Some rfm_data
       /\ length rfm_data = Z.to_nat 3
       /\ forall i c, nth_error rfm_data i = Some c ->
            Api.customerID c = (1000 + Z.of_nat i)%Z
            /\ Api.nextPurchasePrediction c = 1%Z
            /\ (0 <= Api.avgInterPurchaseTime c <= Api.recency c)%Z
            /\ (0 <= Api.churnRisk c <= 70)%Z
            /\ (1 <= Api.frequency c)%Z
            /\ exists p, In p Api.personas
                         /\ Api.cluster c = Api.persona_cluster p
                         /\ Api.segmentLabel c = Api.label p.
Proof.
  assert (H : forall i : nat, Api.in_range ((fun _ => Api.gold_draws) i)).
  { intros _; unfold Api.in_range, Api.gold_draws; cbn.
    split; [left; reflexivity | lia]. }
  split; [exact H |].
  exact (mock_customer_records (fun _ => Api.gold_draws) (fun m _ _ => m) 3 H).
Defined.

(* ================================================================== *)
(** * api/index.py: the clustering step                                *)
(* ================================================================== *)

(** A cluster number 0, 1 or 2 has a label. *)
Lemma segment_label_of (c : Z) :
  (0 <= c < 3)%Z ->
  exists l, Api.py_index Api.segment_labels c = Some l
            /\ nth_error Api.segment_labels (Z.to_nat c) = Some l.
Proof.
  intros Hc; unfold Api.py_index.
  destruct (Z.leb_spec 0 c); [| lia].
  assert (Hcases : c = 0%Z \/ c = 1%Z \/ c = 2%Z) by lia.
  destruct Hcases as [-> | [-> | ->]]; eexists; split; reflexivity.
Qed.

Lemma assign_clusters_spec (rfm_data : list Api.rfm) (clusters : list Z) :
  forall i,
    (forall k, (k < length rfm_data)%nat ->
       exists c, nth_error clusters (i + k) = Some c /\ (0 <= c < 3)%Z) ->
    exists clustered,
      Api.assign_clusters rfm_data clusters i = Some clustered
      /\ length clustered = length rfm_data
      /\ (forall k d, nth_error rfm_data k = Some d ->
            exists c l,
              nth_error clusters (i + k) = Some c
              /\ (0 <= c < 3)%Z
              /\ nth_error Api.segment_labels (Z.to_nat c) = Some l
              /\ nth_error clustered k = Some (Api.with_cluster d c l))
      /\ Forall (fun d => exists c, Api.rfm_cluster d = Some c /\ (0 <= c < 3)%Z)
           clustered.
Proof.
  induction rfm_data as [| data rest IH]; intros i Hcl.
  - exists []; cbn; repeat split; auto.
    intros [| k] d H; discriminate.
  - destruct (Hcl 0%nat) as (c & Hc & Hc3); [cbn; lia |].
    rewrite Nat.add_0_r in Hc.
    destruct (segment_label_of c Hc3) as (l & Hl & Hl').
    destruct (IH (S i)) as (clustered & Hrest & Hlen & Hnth & Hall).
    { intros k Hk; destruct (Hcl (S k)) as (c' & Hc' & Hc3'); [cbn; lia |].
      rewrite Nat.add_succ_r in Hc'; exists c'; split; [exact Hc' | exact Hc3']. }
    exists (Api.with_cluster data c l :: clustered).
    cbn [Api.assign_clusters]; rewrite Hc, Hl, Hrest.
    split; [reflexivity |]. split; [cbn; lia |].
    split.
    + intros [| k] d Hd; cbn in Hd.
      * injection Hd as <-; exists c, l; rewrite Nat.add_0_r; auto.
      * destruct (Hnth k d Hd) as (c' & l' & H1 & H2 & H3 & H4).
        exists c', l'; rewrite Nat.add_succ_r.
        split; [exact H1 |]. split; [exact H2 |]. split; [exact H3 | exact H4].
    + constructor; [exists c; auto | exact Hall].
Qed.

(** Records with a cluster number 0, 1 or 2 fall into exactly one of the
    three clusters. *)
Lemma cluster_points_partition (clustered : list Api.rfm) :
  Forall (fun d => exists c, Api.rfm_cluster d = Some c /\ (0 <= c < 3)%Z) clustered ->
  (length (Api.cluster_points clustered 0)
   + length (Api.cluster_points clustered 1)
   + length (Api.cluster_points clustered 2) = length clustered)%nat.
Proof.
  induction 1 as [| d l (c & Hc & Hc3) _ IH]; [reflexivity |].
  unfold Api.cluster_points in *; cbn [filter]; rewrite Hc.
  assert (Hcases : c = 0%Z \/ c = 1%Z \/ c = 2%Z) by lia.
  destruct Hcases as [-> | [-> | ->]]; cbn; lia.
Qed.

(** The centroid of cluster 0, 1 or 2 exists; it carries the number and
    the display texts of the dummy centroid, and the size of the
    cluster, or the dummy's count when the cluster is empty. *)
Lemma centroid_of_spec (int_mean : list float -> Z) (clustered : list Api.rfm) (i : nat) :
  (i < 3)%nat ->
  exists ce dummy,
    Api.centroid_of int_mean clustered i = Some ce
    /\ nth_error Api.generate_dummy_centroids i = Some dummy
    /\ Api.id ce = Z.of_nat i
    /\ Api.centroid_label ce = Api.centroid_label dummy
    /\ Api.color ce = Api.color dummy
    /\ Api.icon ce = Api.icon dummy
    /\ Api.description ce = Api.description dummy
    /\ Api.count ce
       = (if (length (Api.cluster_points clustered (Z.of_nat i)) =? 0)%nat
          then Api.count dummy
          else Z.of_nat (length (Api.cluster_points clustered (Z.of_nat i))))
    /\ (length (Api.cluster_points clustered (Z.of_nat i)) = 0%nat -> ce = dummy).
Proof.
  intros Hi; unfold Api.centroid_of.
  destruct i as [| [| [| i]]]; try lia;
    destruct (Api.cluster_points clustered _) as [| p points];
    cbn [nth_error Api.generate_dummy_centroids length Nat.eqb];
    eexists; eexists; repeat split; try reflexivity; intros; discriminate.
Qed.

(** X12.  The clustering step.  With fewer than 3 records it returns the
    records as they are, without any cluster, and the dummy centroids.
    With 3 or more, when the clustering gives one number 0, 1 or 2 per
    record, it raises nothing: every record keeps its fields and gets
    its number and the label of that number; there are exactly three
    centroids, numbered 0, 1, 2, with the display texts of the dummy
    ones; the count of a centroid is the size of its cluster, except
    that an empty cluster shows the whole dummy centroid with its fixed
    count; and the three cluster sizes add up to the number of
    records. *)
Theorem clustering_step
  (fit_predict : list Api.rfm -> list Z) (int_mean : list float -> Z)
  (rfm_data : list Api.rfm) :
  ((length rfm_data < 3)%nat ->
   Api._perform_clustering fit_predict int_mean rfm_data
   = Some (rfm_data, Api.generate_dummy_centroids))
  /\ ((3 <= length rfm_data)%nat ->
      length (fit_predict rfm_data) = length rfm_data ->
      Forall (fun c => (0 <= c < 3)%Z) (fit_predict rfm_data) ->
      exists clustered_data centroids,
        Api._perform_clustering fit_predict int_mean rfm_data
        = Some (clustered_data, centroids)
        /\ length clustered_data = length rfm_data
        /\ (forall k d, nth_error rfm_data k = Some d ->
              exists c l,
                nth_error (fit_predict rfm_data) k = Some c
                /\ nth_error Api.segment_labels (Z.to_nat c) = Some l
                /\ nth_error clustered_data k = Some (Api.with_cluster d c l))
        /\ map Api.id centroids = [0; 1; 2]%Z
        /\ (forall i ce, nth_error centroids i = Some ce ->
              exists dummy,
                nth_error Api.generate_dummy_centroids i = Some dummy
                /\ Api.centroid_label ce = Api.centroid_label dummy
                /\ Api.color ce = Api.color dummy
                /\ Api.icon ce = Api.icon dummy
                /\ Api.description ce = Api.description dummy
                /\ Api.count ce
                   = (if (length (Api.cluster_points clustered_data (Z.of_nat i))
                          =? 0)%nat
                      then Api.count dummy
                      else Z.of_nat
                             (length (Api.cluster_points clustered_data (Z.of_nat i))))
                /\ (length (Api.cluster_points clustered_data (Z.of_nat i)) = 0%nat ->
                    ce = dummy))
        /\ (length (Api.cluster_points clustered_data 0)
            + length (Api.cluster_points clustered_data 1)
            + length (Api.cluster_points clustered_data 2)
            = length rfm_data)%nat).
Proof.
  split.
  - intros Hlen; unfold Api._perform_clustering.
    destruct (Nat.ltb_spec (length rfm_data) 3); [reflexivity | lia].
  - intros Hlen Hsame Hids.
    destruct (assign_clusters_spec rfm_data (fit_predict rfm_data) 0)
      as (clustered & Hassign & Hclen & Hnth & Hall).
    { intros k Hk; cbn [Nat.add].
      destruct (nth_error (fit_predict rfm_data) k) as [c |] eqn:Hc;
        [| apply nth_error_None in Hc; lia].
      exists c; split; [reflexivity |].
      rewrite Forall_forall in Hids; apply Hids; eapply nth_error_In; eauto. }
    destruct (centroid_of_spec int_mean clustered 0) as (c0 & d0 & H0); [lia |].
    destruct (centroid_of_spec int_mean clustered 1) as (c1 & d1 & H1); [lia |].
    destruct (centroid_of_spec int_mean clustered 2) as (c2 & d2 & H2); [lia |].
    exists clustered, [c0; c1; c2].
    split.
    { unfold Api._perform_clustering.
      destruct (Nat.ltb_spec (length rfm_data) 3); [lia |].
      rewrite Hassign.
      destruct H0 as (-> & _), H1 as (-> & _), H2 as (-> & _); reflexivity. }
    split; [exact Hclen |].
    split.
    { intros k d Hd; destruct (Hnth k d Hd) as (c & l & Hc & _ & Hl & Hk).
      exists c, l; auto. }
    split.
    { cbn [map].
      destruct H0 as (_ & _ & -> & _), H1 as (_ & _ & -> & _), H2 as (_ & _ & -> & _).
      reflexivity. }
    split.
    { intros i ce Hce.
      destruct i as [| [| [| i]]]; cbn in Hce;
        [| | | destruct i; discriminate]; injection Hce as <-.
      - destruct H0 as (_ & Hd & _ & Hrest); exists d0; split; [exact Hd | exact Hrest].
      - destruct H1 as (_ & Hd & _ & Hrest); exists d1; split; [exact Hd | exact Hrest].
      - destruct H2 as (_ & Hd & _ & Hrest); exists d2; split; [exact Hd | exact Hrest]. }
    rewrite <- Hclen; apply cluster_points_partition; exact Hall.
Qed.

Lemma clustering_step_witness :
  (3 <= length Api.three_records)%nat
  /\ length ((fun _ : list Api.rfm => [0; 0; 2]%Z) Api.three_records)
     = length Api.three_records
  /\ Forall (fun c => (0 <= c < 3)%Z)
       ((fun _ : list Api.rfm => [0; 0; 2]%Z) Api.three_records)
  /\ exists clustered_data centroids,
       Api._perform_clustering (fun _ => [0; 0; 2]%Z) (fun _ => 0%Z) Api.three_records
       = Some (clustered_data, centroids)
       /\ length clustered_data = length Api.three_records
       /\ map Api.id centroids = [0; 1; 2]%Z
       /\ (length (Api.cluster_points clustered_data 0)
           + length (Api.cluster_points clustered_data 1)
           + length (Api.cluster_points clustered_data 2)
           = length Api.three_records)%nat.
Proof.
  assert (H1 : (3 <= length Api.three_records)%nat) by (simpl; lia).
  assert (H2 : length ((fun _ : list Api.rfm => [0; 0; 2]%Z) Api.three_records)
               = length Api.three_records) by reflexivity.
  assert (H3 : Forall (fun c => (0 <= c < 3)%Z)
                 ((fun _ : list Api.rfm => [0; 0; 2]%Z) Api.three_records))
    by (repeat constructor; lia).
  split; [exact H1 |]. split; [exact H2 |]. split; [exact H3 |].
  destruct (proj2 (clustering_step (fun _ => [0; 0; 2]%Z) (fun _ => 0%Z)
                     Api.three_records) H1 H2 H3)
    as (clustered & centroids & Hrun & Hlen & _ & Hids & _ & Hsum).
  exists clustered, centroids; auto.
Defined.
